(** * Netto receipt parser: a shallow embedding of the extraction code

    The development follows the two variants of the parser that live in the
    repository: the refactored script (segmenter, address extractor, line
    filter, line-item scanner as separate functions) and the single-function
    module [extractNettoReceiptData.js].  JavaScript strings are sequences of
    16-bit code units and are modelled as lists of [N]; numbers are IEEE 754
    binary64 values and are modelled with the Standard Library's
    [spec_float]. *)

From Stdlib Require Import String Ascii.
From Stdlib Require Import ZArith NArith List Bool Lia.
From Stdlib Require Import Floats DecimalN.
Import ListNotations.

Set Warnings "-inexact-float".

(** ** JavaScript strings and the built-ins the parser calls *)

Module JS.

Definition codeunit := N.
Definition jsstring := list codeunit.

(** A string literal of the source, read as code units. *)
Definition js (s : string) : jsstring := map N_of_ascii (list_ascii_of_string s).
Arguments js s%_string.

Fixpoint eqs (a b : jsstring) : bool :=
  match a, b with
  | [], [] => true
  | x :: a', y :: b' => N.eqb x y && eqs a' b'
  | _, _ => false
  end.

(** [starts_with p s]: the code units of [p] are the first ones of [s]. *)
Fixpoint starts_with (p s : jsstring) : bool :=
  match p, s with
  | [], _ => true
  | x :: p', y :: s' => N.eqb x y && starts_with p' s'
  | _ :: _, [] => false
  end.

(** [cut sep s]: the text before the first occurrence of [sep] in [s] and
    the text after it, [None] when [sep] does not occur
    (String.prototype.indexOf followed by two substring calls). *)
Fixpoint cut (sep s : jsstring) : option (jsstring * jsstring) :=
  if starts_with sep s then Some ([], skipn (length sep) s)
  else match s with
       | [] => None
       | c :: s' =>
           match cut sep s' with
           | Some (a, b) => Some (c :: a, b)
           | None => None
           end
       end.

(** The pieces of [s] between the occurrences of a non-empty [sep].  Each
    occurrence shortens the rest, so the length of [s] is fuel enough
    ([split_unfold] below). *)
Fixpoint split_fuel (n : nat) (sep s : jsstring) : list jsstring :=
  match cut sep s with
  | None => [s]
  | Some (a, b) =>
      match n with
      | O => [a]
      | S n' => a :: split_fuel n' sep b
      end
  end.

(** String.prototype.split with a string separator and no limit.  With the
    empty separator every code unit becomes a string of its own. *)
Definition split (sep s : jsstring) : list jsstring :=
  match sep with
  | [] => map (fun c => [c]) s
  | _ :: _ => split_fuel (length s) sep s
  end.

(** WhiteSpace and LineTerminator code units, the ones [trim] removes. *)
Definition isWhiteSpace (c : codeunit) : bool :=
  existsb (N.eqb c)
    [9; 10; 11; 12; 13; 32; 160; 5760; 8192; 8193; 8194; 8195; 8196; 8197;
     8198; 8199; 8200; 8201; 8202; 8232; 8233; 8239; 8287; 12288; 65279]%N.

Fixpoint trimStart (s : jsstring) : jsstring :=
  match s with
  | c :: s' => if isWhiteSpace c then trimStart s' else s
  | [] => []
  end.

Definition trimEnd (s : jsstring) : jsstring := rev (trimStart (rev s)).

Definition trim (s : jsstring) : jsstring := trimEnd (trimStart s).

(** String.prototype.replace with a string pattern: only the first
    occurrence is replaced.  The replacement strings of the parser contain
    no dollar sign, so the replacement text is inserted as it is. *)
Definition replace (pat rep s : jsstring) : jsstring :=
  match cut pat s with
  | Some (a, b) => a ++ rep ++ b
  | None => s
  end.

(** Array.prototype.slice with two non-negative bounds. *)
Definition slice {A} (from to : nat) (l : list A) : list A :=
  firstn (to - from) (skipn from l).

(** Array.prototype.join on an array of strings. *)
Fixpoint join (sep : jsstring) (l : list jsstring) : jsstring :=
  match l with
  | [] => []
  | [x] => x
  | x :: l' => x ++ sep ++ join sep l'
  end.

(** Array.prototype.includes on an array of strings. *)
Definition includes (l : list jsstring) (x : jsstring) : bool :=
  existsb (eqs x) l.

(** [occurs sep s]: [sep] is a substring of [s]. *)
Definition occurs (sep s : jsstring) : Prop :=
  exists a b, s = a ++ sep ++ b.

(** Completion of an operation: a value or a thrown exception.  The only
    exception the parser can raise is the TypeError of a property access on
    [undefined]. *)
Inductive exn := TypeError.

Inductive result (A : Type) :=
| Ok (a : A)
| Throw (e : exn).
Arguments Ok {A} a.
Arguments Throw {A} e.

Definition bind {A B} (r : result A) (f : A -> result B) : result B :=
  match r with
  | Ok a => f a
  | Throw e => Throw e
  end.

(** [deref v]: using [v] as the receiver of a method call; [None] stands
    for [undefined]. *)
Definition deref {A} (v : option A) : result A :=
  match v with
  | Some a => Ok a
  | None => Throw TypeError
  end.

End JS.

Import JS.

Notation "x <- c1 ;; c2" := (bind c1 (fun x => c2))
  (at level 61, c1 at next level, right associativity).

(** ** Regular expressions

    The four patterns of the parser use literal text, the classes [.] and
    [\d], the quantifiers [*], [+], [*?] and [+?] on a class, and one
    capturing group.  The matcher is the backtracking matcher of the
    language definition, written with continuations: a quantifier tries its
    alternatives in priority order and the first one whose continuation
    succeeds wins. *)

Module Regex.

Inductive cclass := Dot | Digit.

Definition isLineTerminator (c : codeunit) : bool :=
  existsb (N.eqb c) [10; 13; 8232; 8233]%N.

Definition in_class (cl : cclass) (c : codeunit) : bool :=
  match cl with
  | Dot => negb (isLineTerminator c)
  | Digit => (48 <=? c)%N && (c <=? 57)%N
  end.

Inductive regex :=
| Lit (l : jsstring)
| One (cl : cclass)
| Star (cl : cclass) (greedy : bool)
| Plus (cl : cclass) (greedy : bool)
| Cat (r1 r2 : regex)
| Group (r : regex).

(** Capture 1: [None] while the group has not taken part in the match. *)
Definition caps := option jsstring.

Section Repeat.
Variable R : Type.
Variable p : codeunit -> bool.
Variable k : jsstring -> option R.

(** Greedy repetition: one more code unit first, the continuation after. *)
Fixpoint rep_greedy (s : jsstring) : option R :=
  match s with
  | x :: s' =>
      if p x then
        match rep_greedy s' with
        | Some r => Some r
        | None => k s
        end
      else k s
  | [] => k s
  end.

(** Lazy repetition: the continuation first, one more code unit after. *)
Fixpoint rep_lazy (s : jsstring) : option R :=
  match k s with
  | Some r => Some r
  | None =>
      match s with
      | x :: s' => if p x then rep_lazy s' else None
      | [] => None
      end
  end.
End Repeat.
Arguments rep_greedy {R} p k s.
Arguments rep_lazy {R} p k s.

Definition rep (greedy : bool) (p : codeunit -> bool)
    (k : jsstring -> option caps) (s : jsstring) : option caps :=
  if greedy then rep_greedy p k s else rep_lazy p k s.

Fixpoint m (r : regex) (k : jsstring -> caps -> option caps)
    (s : jsstring) (c : caps) : option caps :=
  match r with
  | Lit l => if starts_with l s then k (skipn (length l) s) c else None
  | One cl =>
      match s with
      | x :: s' => if in_class cl x then k s' c else None
      | [] => None
      end
  | Star cl g => rep g (in_class cl) (fun s' => k s' c) s
  | Plus cl g =>
      match s with
      | x :: s' =>
          if in_class cl x then rep g (in_class cl) (fun s' => k s' c) s'
          else None
      | [] => None
      end
  | Cat r1 r2 => m r1 (m r2 k) s c
  | Group r' =>
      m r' (fun s' _ => k s' (Some (firstn (length s - length s') s))) s c
  end.

(** RegExp.prototype.exec without flags: the first start position, from the
    left, at which the pattern matches.  Only capture 1 of the result array
    is kept. *)
Fixpoint exec (r : regex) (s : jsstring) : option caps :=
  match m r (fun _ c => Some c) s None with
  | Some c => Some c
  | None =>
      match s with
      | [] => None
      | _ :: s' => exec r s'
      end
  end.

End Regex.

Import Regex.

Notation "r1 +++ r2" := (Cat r1 r2) (at level 60, right associativity).

(** String.prototype.match with a pattern without the global flag. *)
Definition str_match (s : jsstring) (r : regex) : option caps := exec r s.

Definition LF : jsstring := [10%N].
Definition dquote : jsstring := [34%N].

(** ** The patterns of the scanner *)

(** [/<td style=\x22font-size:.+>(.+?)<\/td>/], with [\x22] written for the
    double quote of the source. *)
Definition itemRegex : regex :=
  Lit (js "<td style=" ++ dquote ++ js "font-size:") +++ Plus Dot true +++
  Lit (js ">") +++ Group (Plus Dot false) +++ Lit (js "</td>").

(** [/<td style=\x22text-align:right;.+>(\d+,\d\d)&nbsp;<\/td>/] *)
Definition priceRegex : regex :=
  Lit (js "<td style=" ++ dquote ++ js "text-align:right;") +++
  Plus Dot true +++ Lit (js ">") +++
  Group (Plus Digit true +++ Lit (js ",") +++ One Digit +++ One Digit) +++
  Lit (js "&nbsp;</td>").

(** [/<td style=\x22font-size:.+>&nbsp;&nbsp;&nbsp;&nbsp;(.*?)<\/td>/] *)
Definition itemDetailsRegex : regex :=
  Lit (js "<td style=" ++ dquote ++ js "font-size:") +++ Plus Dot true +++
  Lit (js ">&nbsp;&nbsp;&nbsp;&nbsp;") +++ Group (Star Dot false) +++
  Lit (js "</td>").

(** [/<hr .*\/><\/td>/] *)
Definition rowDividerRegex : regex :=
  Lit (js "<hr ") +++ Star Dot true +++ Lit (js "/></td>").

(** ** Numbers

    A number is an IEEE 754 binary64 value.  [round_ratio] is the rounding of
    a non-negative rational to the nearest value, ties to even, which is how
    the value of a decimal literal is defined. *)

Module Number.

Definition number := spec_float.

(** Numerator and denominator of [p / (q * 2^e)]. *)
Definition scale (p q e : Z) : Z * Z :=
  if (0 <=? e)%Z then (p, q * 2 ^ e)%Z else (p * 2 ^ (- e), q)%Z.

Definition nearest_even (num den : Z) : Z :=
  let mz := (num / den)%Z in
  let r := (num mod den)%Z in
  if (2 * r <? den)%Z then mz
  else if (den <? 2 * r)%Z then (mz + 1)%Z
  else if Z.even mz then mz else (mz + 1)%Z.

Definition round_ratio (sign : bool) (p q : Z) : number :=
  if (p <=? 0)%Z then S754_zero sign
  else
    let e0 := (Z.log2 p - Z.log2 q - 53)%Z in
    let e1 :=
      if (fst (scale p q e0) / snd (scale p q e0) <? 2 ^ 53)%Z
      then e0 else (e0 + 1)%Z in
    let e := Z.max e1 (-1074) in
    let mz := nearest_even (fst (scale p q e)) (snd (scale p q e)) in
    if (mz =? 0)%Z then S754_zero sign
    else if (mz =? 2 ^ 53)%Z then
      if (971 <? e + 1)%Z then S754_infinity sign
      else S754_finite sign (Z.to_pos (2 ^ 52)) (e + 1)
    else if (971 <? e)%Z then S754_infinity sign
    else S754_finite sign (Z.to_pos mz) e.

Definition isDigit (c : codeunit) : bool := in_class Digit c.

(** The decimal digit [c] put in front of the numeral [d]. *)
Definition digit_of_codeunit (c : codeunit) (d : Decimal.uint) : Decimal.uint :=
  match (c - 48)%N with
  | 0 => Decimal.D0 d
  | 1 => Decimal.D1 d
  | 2 => Decimal.D2 d
  | 3 => Decimal.D3 d
  | 4 => Decimal.D4 d
  | 5 => Decimal.D5 d
  | 6 => Decimal.D6 d
  | 7 => Decimal.D7 d
  | 8 => Decimal.D8 d
  | _ => Decimal.D9 d
  end%N.

(** A run of decimal digits as a decimal numeral, and back. *)
Fixpoint uint_of_digits (ds : jsstring) : Decimal.uint :=
  match ds with
  | [] => Decimal.Nil
  | c :: ds' => digit_of_codeunit c (uint_of_digits ds')
  end.

Fixpoint digits_of_uint (d : Decimal.uint) : jsstring :=
  match d with
  | Decimal.Nil => []
  | Decimal.D0 d' => 48%N :: digits_of_uint d'
  | Decimal.D1 d' => 49%N :: digits_of_uint d'
  | Decimal.D2 d' => 50%N :: digits_of_uint d'
  | Decimal.D3 d' => 51%N :: digits_of_uint d'
  | Decimal.D4 d' => 52%N :: digits_of_uint d'
  | Decimal.D5 d' => 53%N :: digits_of_uint d'
  | Decimal.D6 d' => 54%N :: digits_of_uint d'
  | Decimal.D7 d' => 55%N :: digits_of_uint d'
  | Decimal.D8 d' => 56%N :: digits_of_uint d'
  | Decimal.D9 d' => 57%N :: digits_of_uint d'
  end.

Definition decimal_value (ds : jsstring) : Z :=
  Z.of_N (N.of_uint (uint_of_digits ds)).

Definition decimal_digits (n : Z) : jsstring :=
  digits_of_uint (N.to_uint (Z.to_N n)).

(** The longest run of decimal digits at the start of [s], and the rest. *)
Fixpoint span_digits (s : jsstring) : jsstring * jsstring :=
  match s with
  | c :: s' =>
      if isDigit c then (c :: fst (span_digits s'), snd (span_digits s'))
      else ([], s)
  | [] => ([], [])
  end.

(** ExponentPart of a decimal literal: the exponent, when the text starts
    with [e] or [E], an optional sign and at least one digit. *)
Definition exponent_part (s : jsstring) : option Z :=
  match s with
  | c :: s' =>
      if (c =? 101)%N || (c =? 69)%N then
        match s' with
        | 45%N :: s2 =>
            match fst (span_digits s2) with
            | [] => None
            | ds => Some (- decimal_value ds)%Z
            end
        | 43%N :: s2 =>
            match fst (span_digits s2) with
            | [] => None
            | ds => Some (decimal_value ds)
            end
        | _ =>
            match fst (span_digits s') with
            | [] => None
            | ds => Some (decimal_value ds)
            end
        end
      else None
  | [] => None
  end.

(** The value of the longest prefix that is an unsigned decimal literal
    ([Infinity], digits with an optional fraction and exponent, or a
    fraction starting with the point); [NaN] when there is none. *)
Definition unsigned_literal (sign : bool) (s : jsstring) : number :=
  if starts_with (js "Infinity") s then S754_infinity sign
  else
    let ip := fst (span_digits s) in
    let r1 := snd (span_digits s) in
    let fp := match r1 with 46%N :: r => fst (span_digits r) | _ => [] end in
    let r2 := match r1 with 46%N :: r => snd (span_digits r) | _ => r1 end in
    match ip, fp with
    | [], [] => S754_nan
    | _, _ =>
        let ex :=
          (match exponent_part r2 with Some x => x | None => 0 end
           - Z.of_nat (length fp))%Z in
        let mant := decimal_value (ip ++ fp) in
        if (0 <=? ex)%Z then round_ratio sign (mant * 10 ^ ex) 1
        else round_ratio sign mant (10 ^ (- ex))
    end.

(** The global function [parseFloat] on a string argument. *)
Definition parseFloat (s : jsstring) : number :=
  match trimStart s with
  | 45%N :: t => unsigned_literal true t
  | 43%N :: t => unsigned_literal false t
  | t => unsigned_literal false t
  end.

(** The digits of the integer [n] laid out with [f] fraction digits. *)
Definition fixed_layout (f : nat) (n : Z) : jsstring :=
  let ds := decimal_digits n in
  let ds' := repeat 48%N (f + 1 - length ds) ++ ds in
  match f with
  | O => ds'
  | _ => firstn (length ds' - f) ds' ++ js "." ++ skipn (length ds' - f) ds'
  end.

(** Number.prototype.toFixed.  [None] stands for the results this model
    leaves out: a finite value of magnitude [10^21] or more is printed by
    the general number-to-string conversion. *)
Definition toFixed (f : nat) (x : number) : option jsstring :=
  match x with
  | S754_nan => Some (js "NaN")
  | S754_infinity s => Some ((if s then js "-" else []) ++ js "Infinity")
  | S754_zero _ => Some (fixed_layout f 0)
  | S754_finite s mx e =>
      let big :=
        if (0 <=? e)%Z then (10 ^ 21 <=? Z.pos mx * 2 ^ e)%Z
        else (10 ^ 21 * 2 ^ (- e) <=? Z.pos mx)%Z in
      if big then None
      else
        let n :=
          if (0 <=? e)%Z then (Z.pos mx * 2 ^ e * 10 ^ Z.of_nat f)%Z
          else ((2 * Z.pos mx * 10 ^ Z.of_nat f + 2 ^ (- e)) / 2 ^ (- e + 1))%Z in
        Some ((if s then js "-" else []) ++ fixed_layout f n)
  end.

(** ToBoolean on a number: zero and NaN are false. *)
Definition number_truthy (x : number) : bool :=
  match x with
  | S754_zero _ | S754_nan => false
  | _ => true
  end.

End Number.

Import Number.

(** ** Line items and the scanner loop *)

Record LineItem := mkLineItem {
  description : option jsstring;
  totalPrice : option number;
  details : option jsstring
}.

(** [{ description: null, totalPrice: null, details: null }] *)
Definition nullItem : LineItem :=
  {| description := None; totalPrice := None; details := None |}.

(** ToBoolean on a field: [null], the empty string, zero and NaN are
    false. *)
Definition string_truthy (v : option jsstring) : bool :=
  match v with
  | Some (_ :: _) => true
  | _ => false
  end.

Definition price_truthy (v : option number) : bool :=
  match v with
  | Some x => number_truthy x
  | None => false
  end.

(** [currentLineItem.description || currentLineItem.totalPrice ||
    currentLineItem.details] *)
Definition hasData (it : LineItem) : bool :=
  string_truthy (description it) || price_truthy (totalPrice it)
  || string_truthy (details it).

(** The variables of the scanner loop. *)
Record locals := mkLocals {
  lineItems : list LineItem;
  currentLineItem : LineItem;
  searchItem : bool;
  searchPrice : bool;
  searchDetail : bool
}.

Definition initial : locals :=
  {| lineItems := []; currentLineItem := nullItem;
     searchItem := false; searchPrice := false; searchDetail := false |}.

(** [if (hasData) lineItems.push({ ...currentLineItem })] *)
Definition push_if_data (st : locals) : list LineItem :=
  if hasData (currentLineItem st) then lineItems st ++ [currentLineItem st]
  else lineItems st.

Definition on_divider (st : locals) : locals :=
  {| lineItems := push_if_data st; currentLineItem := nullItem;
     searchItem := true; searchPrice := false; searchDetail := false |}.

(** [if (searchDetail) { ... }], the last statement of the loop body. *)
Definition detail_branch (st : locals) (line : jsstring) : result locals :=
  if searchDetail st then
    match str_match line itemDetailsRegex with
    | Some detailMatch =>
        g <- deref detailMatch ;;
        Ok {| lineItems := lineItems st;
              currentLineItem :=
                {| description := description (currentLineItem st);
                   totalPrice := totalPrice (currentLineItem st);
                   details := Some (trim g) |};
              searchItem := searchItem st;
              searchPrice := searchPrice st;
              searchDetail := false |}
    | None => Ok st
    end
  else Ok st.

(** [if (searchPrice) { ... continue; }] followed by the detail branch. *)
Definition price_branch (st : locals) (line : jsstring) : result locals :=
  if searchPrice st then
    match str_match line priceRegex with
    | Some priceMatch =>
        g <- deref priceMatch ;;
        let priceStr := replace (js ",") (js ".") (trim g) in
        Ok {| lineItems := lineItems st;
              currentLineItem :=
                {| description := description (currentLineItem st);
                   totalPrice := Some (parseFloat priceStr);
                   details := details (currentLineItem st) |};
              searchItem := searchItem st;
              searchPrice := false;
              searchDetail := true |}
    | None => detail_branch st line
    end
  else detail_branch st line.

(** [if (searchItem) { ... continue; }] followed by the other branches. *)
Definition item_branch (st : locals) (line : jsstring) : result locals :=
  if searchItem st then
    match str_match line itemRegex with
    | Some itemMatch =>
        g <- deref itemMatch ;;
        Ok {| lineItems := lineItems st;
              currentLineItem :=
                {| description := Some (trim g);
                   totalPrice := totalPrice (currentLineItem st);
                   details := details (currentLineItem st) |};
              searchItem := false;
              searchPrice := true;
              searchDetail := searchDetail st |}
    | None => price_branch st line
    end
  else price_branch st line.

(** The body of [for (const line of lineItemsFilteredArray)]. *)
Definition loop_body (st : locals) (line : jsstring) : result locals :=
  match str_match line rowDividerRegex with
  | Some _ => Ok (on_divider st)
  | None => item_branch st line
  end.

Fixpoint for_of (st : locals) (lines : list jsstring) : result locals :=
  match lines with
  | [] => Ok st
  | line :: rest => st' <- loop_body st line ;; for_of st' rest
  end.

(** The loop and the push after it, on an array of filtered lines. *)
Definition scan_lines (lines : list jsstring) : result (list LineItem) :=
  st <- for_of initial lines ;; Ok (push_if_data st).

Definition stringsToRemove : list jsstring :=
  [ [] ; js "<tr>"; js "</tr>"; js "<td>&nbsp;</td>"; js "<td></td>" ].

(** The line filter on an array of raw lines. *)
Definition filter_lines (lineItemsRawArray : list jsstring) : list jsstring :=
  filter (fun line => negb (includes stringsToRemove (trim line)))
         lineItemsRawArray.

Module Receipt.
Record t := mk {
  storeAddress : option jsstring;
  lineItems : list LineItem
}.
End Receipt.

(** ** The script with one function per stage *)

Module Script.

Record RawSegments := mkRawSegments {
  storeAddressRaw : option jsstring;
  lineItemsRaw : option jsstring
}.

Definition extractStoreAndPurchaseString
    (emailBody startString middleString endString : jsstring)
    : result RawSegments :=
  afterStart <- deref (nth_error (split startString emailBody) 1) ;;
  storeAndPurchaseString <- deref (nth_error (split endString afterStart) 0) ;;
  let storeAndPurchaseStringArray :=
    split middleString storeAndPurchaseString in
  Ok {| storeAddressRaw := nth_error storeAndPurchaseStringArray 0;
        lineItemsRaw := nth_error storeAndPurchaseStringArray 1 |}.

Definition extractStoreAddress (storeAddressRaw : option jsstring)
    : result jsstring :=
  raw <- deref storeAddressRaw ;;
  let addressRawArray := slice 1 3 (split LF raw) in
  let addressArrayClean :=
    map (fun s => trim (replace (js "<br>") [] s)) addressRawArray in
  Ok (join (js ", ") addressArrayClean).

Definition extractLineItemsArray (lineItemsRaw : option jsstring)
    : result (list jsstring) :=
  raw <- deref lineItemsRaw ;;
  Ok (filter_lines (split LF raw)).

Definition extractLineItems (lineItemsRaw : option jsstring)
    : result (list LineItem) :=
  lineItemsFilteredArray <- extractLineItemsArray lineItemsRaw ;;
  scan_lines lineItemsFilteredArray.

Definition extractNettoReceiptData (emailBody : jsstring)
    : result Receipt.t :=
  segs <- extractStoreAndPurchaseString emailBody (js "Filiale:")
            (js "<!-- ZAHLUNGEN -->") (js "<!-- SUMME -->") ;;
  storeAddress <- extractStoreAddress (storeAddressRaw segs) ;;
  lineItems <- extractLineItems (lineItemsRaw segs) ;;
  Ok {| Receipt.storeAddress := Some storeAddress;
        Receipt.lineItems := lineItems |}.

End Script.

(** ** The module with the single exported function *)

Module Single.

Definition extractNettoReceiptData (emailBody : jsstring)
    : result Receipt.t :=
  afterStart <- deref (nth_error (split (js "Filiale:") emailBody) 1) ;;
  storeAndPurchaseString <-
    deref (nth_error (split (js "<!-- ZAHLUNGEN -->") afterStart) 0) ;;
  let storeAndPurchaseStringArray :=
    split (js "<!-- WARENKORB -->") storeAndPurchaseString in
  let storeAddressRaw := nth_error storeAndPurchaseStringArray 0 in
  afterMiddle <- deref (nth_error storeAndPurchaseStringArray 1) ;;
  lineItemsRaw <- deref (nth_error (split (js "<!-- SUMME -->") afterMiddle) 0) ;;
  addressRaw <- deref storeAddressRaw ;;
  let addressRawArray := slice 1 3 (split LF addressRaw) in
  let lineItemsRawArray := split LF lineItemsRaw in
  let addressArrayClean :=
    map (fun s => trim (replace (js "<br>") [] s)) addressRawArray in
  let storeAddress := Some (join (js ", ") addressArrayClean) in
  let lineItemsFilteredArray := filter_lines lineItemsRawArray in
  lineItems <- scan_lines lineItemsFilteredArray ;;
  Ok {| Receipt.storeAddress := storeAddress;
        Receipt.lineItems := lineItems |}.

End Single.

(** ** Notions used to state the properties *)

(** The pattern has its capturing group on the path every match takes. *)
Fixpoint has_group (r : regex) : bool :=
  match r with
  | Group _ => true
  | Cat r1 r2 => has_group r1 || has_group r2
  | _ => false
  end.

(** The strings a pattern can consume, whatever the order in which the
    matcher tries them. *)
Fixpoint lang (r : regex) (u : jsstring) : Prop :=
  match r with
  | Lit l => u = l
  | One cl => exists x, u = [x] /\ in_class cl x = true
  | Star cl _ => forallb (in_class cl) u = true
  | Plus cl _ => u <> [] /\ forallb (in_class cl) u = true
  | Cat r1 r2 => exists u1 u2, u = u1 ++ u2 /\ lang r1 u1 /\ lang r2 u2
  | Group r' => lang r' u
  end.

(** The strings the capturing group of a pattern can consume. *)
Fixpoint group_lang (r : regex) (g : jsstring) : Prop :=
  match r with
  | Group r' => lang r' g
  | Cat r1 r2 => group_lang r1 g \/ group_lang r2 g
  | _ => False
  end.


(** [lacks c s]: the code unit [c] does not occur in [s]. *)
Definition lacks (c : codeunit) (s : jsstring) : bool :=
  forallb (fun x => negb (N.eqb x c)) s.


(** The opening of a cell with a font size, up to the colon, and the
    closing tag of a cell. *)
Definition cell_open : jsstring :=
  js "<td style=" ++ dquote ++ js "font-size:".


Definition is_divider (line : jsstring) : bool :=
  match str_match line rowDividerRegex with
  | Some _ => true
  | None => false
  end.

Definition count_dividers (lines : list jsstring) : nat :=
  length (filter is_divider lines).

(** The idle state: none of the three search flags is set. *)
Definition idle (st : locals) : bool :=
  negb (searchItem st) && negb (searchPrice st) && negb (searchDetail st).

(** The items in progress at the flush points of a run from [st]: one at
    each divider line and one at the end of the input, in input order. *)
Fixpoint flush_trace (st : locals) (lines : list jsstring) : list LineItem :=
  match lines with
  | [] => [currentLineItem st]
  | line :: rest =>
      match loop_body st line with
      | Ok st' =>
          (if is_divider line then [currentLineItem st] else [])
            ++ flush_trace st' rest
      | Throw _ => []
      end
  end.

(** ** Sample inputs *)

(** The raw address text of the address scenario. *)
Definition address_sample : jsstring :=
  LF ++ js "Netto City-Filiale" ++ LF ++ js "<br>Hauptstr. 123, 12345 Berlin"
     ++ LF ++ js "<br>extra".

(** A table cell with a style attribute, as the receipts have them. *)
Definition td (style text : string) : jsstring :=
  js "<td style=" ++ dquote ++ js style ++ dquote ++ js ">" ++ js text
     ++ js "</td>".

(** A divider row, and the three rows of the item block of the basic
    receipt of the test suite. *)
Definition divider_row : jsstring :=
  js "<tr><td colspan=" ++ dquote ++ js "2" ++ dquote ++ js "><hr /></td></tr>".

Definition milk_rows : list jsstring :=
  [ td "font-size:12px;" "Milch 3.5%";
    td "text-align:right;" "1,29&nbsp;";
    td "font-size:10px;" "&nbsp;&nbsp;&nbsp;&nbsp;1 Liter" ].

Definition bread_rows : list jsstring :=
  [ td "font-size:12px;" "Brot";
    td "text-align:right;" "2,49&nbsp;";
    td "font-size:10px;" "&nbsp;&nbsp;&nbsp;&nbsp;500g" ].



(** The items the rows stand for.  The prices are the binary64 values of
    the literals [1.29] and [2.49], mantissa and exponent written out
    ([literal_prices] below). *)
Definition milk_item : LineItem :=
  {| description := Some (js "Milch 3.5%");
     totalPrice := Some (S754_finite false 5809643519307940 (-52));
     details := Some (js "1 Liter") |}.

Definition bread_item : LineItem :=
  {| description := Some (js "Brot");
     totalPrice := Some (S754_finite false 5606981536076268 (-51));
     details := Some (js "500g") |}.

(** The mock email body of the basic receipt test, line by line. *)
Definition basic_receipt : jsstring :=
  join LF
    [ [];
      js "      <html>";
      js "        <body>";
      js "          Filiale:";
      js "          <br>Netto City-Filiale";
      js "          <br>Hauptstr. 123, 12345 Berlin";
      js "          <!-- WARENKORB -->";
      js "          <table>";
      js "            <tr>";
      js "              " ++ td "font-size:12px;" "Milch 3.5%";
      js "            </tr>";
      js "            <tr>";
      js "              " ++ td "text-align:right;" "1,29&nbsp;";
      js "            </tr>";
      js "            <tr>";
      js "              "
        ++ td "font-size:10px;" "&nbsp;&nbsp;&nbsp;&nbsp;1 Liter";
      js "            </tr>";
      js "            " ++ divider_row;
      js "            <tr>";
      js "              " ++ td "font-size:12px;" "Brot";
      js "            </tr>";
      js "            <tr>";
      js "              " ++ td "text-align:right;" "2,49&nbsp;";
      js "            </tr>";
      js "            <tr>";
      js "              " ++ td "font-size:10px;" "&nbsp;&nbsp;&nbsp;&nbsp;500g";
      js "            </tr>";
      js "          </table>";
      js "          <!-- SUMME -->";
      js "          <table>";
      js "            <tr>";
      js "              <td>Gesamtbetrag:</td>";
      js "              <td>3,78&nbsp;" ++ [8364%N] ++ js "</td>";
      js "            </tr>";
      js "          </table>";
      js "          <!-- ZAHLUNGEN -->";
      js "        </body>";
      js "      </html>";
      js "    " ].

(** Text up to the first occurrence of [sep], everything when there is
    none: element 0 of the split. *)
Definition upto (sep s : jsstring) : jsstring :=
  match cut sep s with
  | Some (a, _) => a
  | None => s
  end.

(** ** Further notions for the properties of the whole code *)

(** The markers of the receipt. *)
Definition FILIALE : jsstring := js "Filiale:".
Definition WARENKORB : jsstring := js "<!-- WARENKORB -->".
Definition SUMME : jsstring := js "<!-- SUMME -->".
Definition ZAHLUNGEN : jsstring := js "<!-- ZAHLUNGEN -->".

(** [nowhere l s]: the text [l] starts at no position of [s]. *)
Definition nowhere (l s : jsstring) : Prop :=
  forall a b, s = a ++ b -> starts_with l b = false.

(** The states the scanner can be in: at most one search flag is set, and
    the flag tells which fields of the item in progress are filled. *)
Definition scanner_state (st : locals) : Prop :=
  let c := currentLineItem st in
  match searchItem st, searchPrice st, searchDetail st with
  | false, false, false =>
      c = nullItem
      \/ (description c <> None /\ totalPrice c <> None /\ details c <> None)
  | true, false, false => c = nullItem
  | false, true, false =>
      description c <> None /\ totalPrice c = None /\ details c = None
  | false, false, true =>
      description c <> None /\ totalPrice c <> None /\ details c = None
  | _, _, _ => False
  end.

(** The part of the loop variables the next turn depends on. *)
Definition control (st : locals) : LineItem * bool * bool * bool :=
  (currentLineItem st, searchItem st, searchPrice st, searchDetail st).

(** A number that is neither NaN nor negative. *)
Definition nonnegative (x : number) : Prop :=
  match x with
  | S754_nan => False
  | S754_zero s | S754_infinity s | S754_finite s _ _ => s = false
  end.

(** A price as the scanner reads it: the value of digits, a point and two
    digits. *)
Definition price_of_text (x : number) : Prop :=
  exists ip d1 d2,
    ip <> [] /\ forallb isDigit ip = true
    /\ isDigit d1 = true /\ isDigit d2 = true
    /\ x = parseFloat (ip ++ js "." ++ [d1; d2]).

(** An item whose price, if it has one, was read from such a text. *)
Definition priced (it : LineItem) : Prop :=
  forall x, totalPrice it = Some x -> price_of_text x.

(** ** The glue between the parser, the mailbox and the sheets *)

Module Code.

(** Values as the sheets hand them out and the functions pass them on.  An
    object (a date read from a cell, the date of a message) is known by its
    identity only. *)
Inductive value :=
| VUndefined
| VNull
| VBoolean (b : bool)
| VNumber (x : number)
| VString (s : jsstring)
| VObject (ref : nat).

(** IsStrictlyEqual, the comparison of [===] and of [indexOf]. *)
Definition strict_eq (a b : value) : bool :=
  match a, b with
  | VUndefined, VUndefined => true
  | VNull, VNull => true
  | VBoolean x, VBoolean y => Bool.eqb x y
  | VNumber x, VNumber y => SFeqb x y
  | VString x, VString y => eqs x y
  | VObject x, VObject y => Nat.eqb x y
  | _, _ => false
  end.

(** ToBoolean. *)
Definition truthy (v : value) : bool :=
  match v with
  | VUndefined | VNull => false
  | VBoolean b => b
  | VNumber x => number_truthy x
  | VString s => match s with [] => false | _ :: _ => true end
  | VObject _ => true
  end.

(** [row[i]] on an array: [undefined] past the end. *)
Definition cell (row : list value) (i : nat) : value := nth i row VUndefined.

(** Array.prototype.indexOf, with [None] for [-1]. *)
Fixpoint indexOf (l : list value) (x : value) : option nat :=
  match l with
  | [] => None
  | y :: l' =>
      if strict_eq y x then Some 0
      else match indexOf l' x with
           | Some i => Some (S i)
           | None => None
           end
  end.

Definition of_string (v : option jsstring) : value :=
  match v with
  | Some s => VString s
  | None => VNull
  end.

Definition of_number (v : option number) : value :=
  match v with
  | Some x => VNumber x
  | None => VNull
  end.

(** What the functions do to the outside: rows appended to a sheet and the
    message marked as read.  Log lines are left out. *)
Inductive effect :=
| AppendRow (sheet : jsstring) (row : list value)
| MarkRead.

Inductive thrown := Type_error | Reference_error.

Inductive outcome (A : Type) :=
| Returned (a : A)
| Raised (e : thrown).
Arguments Returned {A} a.
Arguments Raised {A} e.

Definition purchaseIdColumnIndex : nat := 0.
Definition dateColumnIndex : nat := 2.
Definition totalPriceColumnIndex : nat := 3.
Definition storeIdColumnIndex : nat := 4.

Definition getLastRowData (sheetData : list (list value))
    : option (list value) :=
  nth_error sheetData (length sheetData - 1).

(** [extractReceiptData]: the extraction with every exception turned into
    [null].  The result object always has its two keys, so the test for an
    empty object never fires. *)
Definition extractReceiptData (body : jsstring) : option Receipt.t :=
  match Single.extractNettoReceiptData body with
  | Ok data => Some data
  | Throw _ => None
  end.

(** [getStoreId], on the rows read from the stores sheet. *)
Definition getStoreId (storesData : list (list value)) (storeName : jsstring)
    (data : Receipt.t) : list effect * outcome value :=
  let storeAddresses := skipn 1 (map (fun row => cell row 2) storesData) in
  let address := of_string (Receipt.storeAddress data) in
  match indexOf storeAddresses address with
  | None =>
      let appended :=
        [AppendRow (js "stores") [VNull; VString storeName; address]] in
      match getLastRowData storesData with
      | Some row => (appended, Returned (cell row 0))
      | None => (appended, Raised Type_error)
      end
  | Some existingStoreIndex =>
      match nth_error storesData (existingStoreIndex + 1) with
      | Some row => ([], Returned (cell row 0))
      | None => ([], Raised Type_error)
      end
  end.

(** [loadLineItems]: one row of the price log per line item. *)
Definition loadLineItems (purchaseId : value) (data : Receipt.t)
    : list effect :=
  map (fun item =>
         AppendRow (js "priceLog")
           [ of_string (description item); of_string (details item);
             VNull; VNull; VNull; VString (js "EUR");
             of_number (totalPrice item); purchaseId ])
      (Receipt.lineItems data).

Section Dates.

(** [dateString v] stands for [new Date(v).toString()]; the text depends on
    the time zone of the runtime and is left open. *)
Variable dateString : value -> jsstring.

(** The loop of [findMatchingPurchaseId] over the rows after the header. *)
Fixpoint findMatch (rows : list (list value)) (storeId : value)
    (purchaseDate : jsstring) : value :=
  match rows with
  | [] => VNull
  | row :: rest =>
      let existingDate := dateString (cell row dateColumnIndex) in
      let isMatchingStore := strict_eq (cell row storeIdColumnIndex) storeId in
      let isMatchingDate := eqs existingDate purchaseDate in
      let isMatchingPrice := true in
      if isMatchingStore && isMatchingDate && isMatchingPrice
      then cell row purchaseIdColumnIndex
      else findMatch rest storeId purchaseDate
  end.

(** [findMatchingPurchaseId]; [purchaseDate] is the text of the date. *)
Definition findMatchingPurchaseId (purchasesData : list (list value))
    (storeId : value) (purchaseDate : jsstring) (totalPrice : value)
    : value :=
  findMatch (skipn 1 purchasesData) storeId purchaseDate.

(** [getPurchaseId], on the rows read from the purchases sheet.  The
    branch for a new purchase starts with [purchasesSheet.appendRow], and
    no [purchasesSheet] is in scope there. *)
Definition getPurchaseId (purchasesData : list (list value))
    (storeId date totalPrice : value) : list effect * outcome value :=
  let purchaseId :=
    findMatchingPurchaseId purchasesData storeId (dateString date)
      (VNumber (S754_zero false)) in
  if truthy purchaseId then ([], Returned purchaseId)
  else ([], Raised Reference_error).

Definition loadReceiptDataToSheet (storesData purchasesData : list (list value))
    (data : Receipt.t) (storeName : jsstring) (date totalPrice : value)
    : list effect * outcome unit :=
  match getStoreId storesData storeName data with
  | (e1, Raised err) => (e1, Raised err)
  | (e1, Returned storeId) =>
      match getPurchaseId purchasesData storeId date totalPrice with
      | (e2, Raised err) => (e1 ++ e2, Raised err)
      | (e2, Returned purchaseId) =>
          (e1 ++ e2 ++ loadLineItems purchaseId data, Returned tt)
      end
  end.

(** [processMessage], on the body and date of the message and the rows of
    the two sheets it reads.  Whatever is thrown is caught and logged. *)
Definition processMessage (storesData purchasesData : list (list value))
    (body : jsstring) (date : value) : list effect :=
  match extractReceiptData body with
  | Some data =>
      match loadReceiptDataToSheet storesData purchasesData data
              (js "Netto Marken-Discount") date VUndefined with
      | (e, Returned _) => e ++ [MarkRead]
      | (e, Raised _) => e
      end
  | None => []
  end.

End Dates.

End Code.

Import Code.

(** A stand-in for the date text, for the examples: the text of a string
    cell is taken as it is. *)
Definition sample_dateString (v : value) : jsstring :=
  match v with
  | VString s => s
  | _ => []
  end.

(** Rows of a stores sheet and of a purchases sheet, header first. *)
Definition sample_stores : list (list value) :=
  [ [VString (js "id"); VString (js "name"); VString (js "address")];
    [VString (js "s1"); VString (js "Netto");
     VString (js "Netto City-Filiale, Hauptstr. 123, 12345 Berlin")] ].

Definition sample_purchases : list (list value) :=
  [ [VString (js "id"); VNull; VString (js "date"); VString (js "total");
     VString (js "store")];
    [VString (js "p1"); VNull; VString (js "Mon Jan 06 2025");
     VNumber (S754_zero false); VString (js "s1")] ].


(** * Properties *)

(** ** Strings *)

Section StringFacts.

Lemma starts_with_app p t : starts_with p (p ++ t) = true.
Proof.
  induction p as [|x p IH]; simpl; [reflexivity|].
  now rewrite N.eqb_refl, IH.
Qed.

Lemma starts_with_split p s :
  starts_with p s = true -> s = p ++ skipn (length p) s.
Proof.
  revert s; induction p as [|x p IH]; intros s H; simpl in *; [reflexivity|].
  destruct s as [|y s]; [discriminate|].
  apply andb_prop in H as [Hxy Hp].
  apply N.eqb_eq in Hxy; subst y.
  now rewrite <- (IH s Hp).
Qed.

Lemma skipn_app_exact (p t : jsstring) : skipn (length p) (p ++ t) = t.
Proof. induction p; simpl; auto. Qed.

Lemma cut_some sep s a b : cut sep s = Some (a, b) -> s = a ++ sep ++ b.
Proof.
  revert a b; induction s as [|c s IH]; intros a b H.
  - simpl in H. destruct (starts_with sep []) eqn:E; [|discriminate].
    injection H as <- <-. now apply starts_with_split in E.
  - simpl in H. destruct (starts_with sep (c :: s)) eqn:E.
    + injection H as <- <-. now apply starts_with_split in E.
    + destruct (cut sep s) as [[a' b']|] eqn:C; [|discriminate].
      injection H as <- <-. simpl. f_equal. now apply IH.
Qed.

Lemma cut_none sep s : cut sep s = None -> ~ occurs sep s.
Proof.
  induction s as [|c s IH]; intros H [a [b E]].
  - simpl in H. destruct (starts_with sep []) eqn:S; [discriminate|].
    destruct a; [|discriminate]. simpl in E.
    rewrite E, starts_with_app in S. discriminate.
  - simpl in H. destruct (starts_with sep (c :: s)) eqn:S; [discriminate|].
    destruct (cut sep s) as [[a' b']|] eqn:C; [discriminate|].
    destruct a as [|x a].
    + simpl in E. rewrite E, starts_with_app in S. discriminate.
    + injection E as _ E. apply IH; [reflexivity|]. now exists a, b.
Qed.

Lemma cut_occurs sep s : occurs sep s <-> cut sep s <> None.
Proof.
  split.
  - intros H C. now apply cut_none in C.
  - intros H. destruct (cut sep s) as [[a b]|] eqn:C; [|congruence].
    exists a, b. now apply cut_some.
Qed.

Lemma cut_shorter sep s a b :
  sep <> [] -> cut sep s = Some (a, b) -> length b < length s.
Proof.
  intros Hs H. apply cut_some in H. subst s.
  rewrite !length_app. destruct sep; [congruence|]. simpl. lia.
Qed.

Lemma cut_nil sep : sep <> [] -> cut sep [] = None.
Proof. destruct sep; [congruence|reflexivity]. Qed.

Lemma split_fuel_enough sep n n' s :
  sep <> [] -> length s <= n -> length s <= n' ->
  split_fuel n sep s = split_fuel n' sep s.
Proof.
  intros Hs. revert n' s. induction n as [|n IH]; intros n' s Hn Hn'.
  - destruct s; [|simpl in Hn; lia].
    destruct n'; cbn [split_fuel]; now rewrite cut_nil.
  - destruct n' as [|n'].
    + destruct s; [|simpl in Hn'; lia].
      cbn [split_fuel]; now rewrite cut_nil.
    + cbn [split_fuel]. destruct (cut sep s) as [[a b]|] eqn:C; auto.
      f_equal. pose proof (cut_shorter _ _ _ _ Hs C). apply IH; lia.
Qed.

(** The split of a string by a non-empty separator, one occurrence at a
    time. *)
Lemma split_unfold sep s :
  sep <> [] ->
  split sep s =
    match cut sep s with
    | None => [s]
    | Some (a, b) => a :: split sep b
    end.
Proof.
  intros Hs. unfold split. destruct sep as [|x sep]; [congruence|].
  destruct s as [|c s].
  - cbn [length split_fuel]. now rewrite cut_nil.
  - cbn [length split_fuel].
    destruct (cut (x :: sep) (c :: s)) as [[a b]|] eqn:C; auto.
    f_equal. apply cut_shorter in C; [|congruence].
    apply split_fuel_enough; [congruence| simpl in C; lia | lia].
Qed.

Lemma split_0 sep s :
  sep <> [] -> nth_error (split sep s) 0 = Some (upto sep s).
Proof.
  intros Hs. rewrite split_unfold by assumption. unfold upto.
  now destruct (cut sep s) as [[a b]|].
Qed.

Lemma split_1 sep s :
  sep <> [] ->
  nth_error (split sep s) 1 =
    match cut sep s with
    | Some (_, b) => Some (upto sep b)
    | None => None
    end.
Proof.
  intros Hs. rewrite split_unfold by assumption.
  destruct (cut sep s) as [[a b]|]; [|reflexivity].
  simpl. now apply split_0.
Qed.

End StringFacts.

(** ** The segmenter *)

(** C3, as amended.  With non-empty markers the segmenter throws exactly
    when the start marker is absent, and what it throws is the TypeError of
    a method call on [undefined].  When the start marker is present it
    returns normally: an absent end marker only makes the span run to the
    end of the text after the start marker, and an absent middle marker
    leaves [lineItemsRaw] undefined next to a [storeAddressRaw] that holds
    the whole span; the TypeError then comes from the line filter, when the
    undefined block is split.  With the middle marker in the span both raw
    substrings are returned. *)
Theorem segmenter_outcome
    (emailBody startString middleString endString : jsstring) :
  startString <> [] -> middleString <> [] -> endString <> [] ->
  (~ occurs startString emailBody ->
   Script.extractStoreAndPurchaseString
     emailBody startString middleString endString = Throw TypeError)
  /\
  (forall before after,
     cut startString emailBody = Some (before, after) ->
     let rest := upto startString after in
     let span := upto endString rest in
     (~ occurs endString rest -> span = rest)
     /\ Script.extractStoreAndPurchaseString
          emailBody startString middleString endString
        = Ok {| Script.storeAddressRaw := Some (upto middleString span);
                Script.lineItemsRaw :=
                  match cut middleString span with
                  | Some (_, b) => Some (upto middleString b)
                  | None => None
                  end |}
     /\ (~ occurs middleString span ->
         upto middleString span = span
         /\ cut middleString span = None
         /\ Script.extractLineItems None = Throw TypeError)
     /\ (occurs middleString span ->
         exists a b, cut middleString span = Some (a, b))).
Proof.
  intros Hs Hm He. split.
  - intros Hno. unfold Script.extractStoreAndPurchaseString.
    rewrite split_1 by assumption.
    destruct (cut startString emailBody) as [[a b]|] eqn:C; [|reflexivity].
    exfalso. apply Hno. apply cut_occurs. congruence.
  - intros before after C rest span. repeat split.
    + intros Hno. unfold span, upto at 1.
      destruct (cut endString rest) as [[a b]|] eqn:C'; [|reflexivity].
      exfalso. apply Hno. apply cut_occurs. congruence.
    + unfold Script.extractStoreAndPurchaseString.
      rewrite split_1, C by assumption. cbn [deref bind].
      rewrite split_0 by assumption. cbn [deref bind].
      rewrite split_0, split_1 by assumption. reflexivity.
    + unfold upto at 1.
      destruct (cut middleString span) as [[a b]|] eqn:C'; [|reflexivity].
      exfalso. apply H. apply cut_occurs. congruence.
    + destruct (cut middleString span) as [[a b]|] eqn:C'; [|reflexivity].
      exfalso. apply H. apply cut_occurs. congruence.
    + intros Hocc. apply cut_occurs in Hocc.
      destruct (cut middleString span) as [[a b]|]; [|congruence].
      now exists a, b.
Qed.

Lemma segmenter_outcome_witness :
  (~ occurs (js "Filiale:") (js "Guten Tag") ->
   Script.extractStoreAndPurchaseString (js "Guten Tag") (js "Filiale:")
     (js "<!-- WARENKORB -->") (js "<!-- SUMME -->") = Throw TypeError)
  /\ Script.extractStoreAndPurchaseString (js "Guten Tag") (js "Filiale:")
       (js "<!-- WARENKORB -->") (js "<!-- SUMME -->") = Throw TypeError.
Proof.
  split.
  - apply (segmenter_outcome (js "Guten Tag") (js "Filiale:")
             (js "<!-- WARENKORB -->") (js "<!-- SUMME -->"));
      vm_compute; discriminate.
  - vm_compute. reflexivity.
Defined.

(** C3, the claim as stated, fails: without the end marker, and also
    without the middle marker, the segmenter returns normally. *)
Lemma segmenter_without_end_marker :
  Script.extractStoreAndPurchaseString
    (js "Filiale:A<!-- WARENKORB -->B") (js "Filiale:")
    (js "<!-- WARENKORB -->") (js "<!-- SUMME -->")
  = Ok {| Script.storeAddressRaw := Some (js "A");
          Script.lineItemsRaw := Some (js "B") |}
  /\ ~ occurs (js "<!-- SUMME -->") (js "A<!-- WARENKORB -->B")
  /\ Script.extractStoreAndPurchaseString
       (js "Filiale:AB<!-- SUMME -->") (js "Filiale:")
       (js "<!-- WARENKORB -->") (js "<!-- SUMME -->")
     = Ok {| Script.storeAddressRaw := Some (js "AB");
             Script.lineItemsRaw := None |}.
Proof.
  split; [vm_compute; reflexivity|]. split; [|vm_compute; reflexivity].
  apply cut_none. vm_compute. reflexivity.
Qed.

(** The single-function module segments in place.  It throws when the
    start marker is absent and when the middle marker is absent from the
    span; a missing end marker raises nothing there either. *)
Lemma single_function_segmentation (emailBody : jsstring) :
  (~ occurs (js "Filiale:") emailBody ->
   Single.extractNettoReceiptData emailBody = Throw TypeError)
  /\ (forall before after,
        cut (js "Filiale:") emailBody = Some (before, after) ->
        ~ occurs (js "<!-- WARENKORB -->")
            (upto (js "<!-- ZAHLUNGEN -->") (upto (js "Filiale:") after)) ->
        Single.extractNettoReceiptData emailBody = Throw TypeError).
Proof.
  split.
  - intros Hno. unfold Single.extractNettoReceiptData.
    rewrite split_1 by discriminate.
    destruct (cut (js "Filiale:") emailBody) as [[a b]|] eqn:C;
      [|reflexivity].
    exfalso. apply Hno. apply cut_occurs. congruence.
  - intros before after C Hno. unfold Single.extractNettoReceiptData.
    rewrite split_1, C by discriminate. cbn [deref bind].
    rewrite split_0 by discriminate. cbn [deref bind].
    rewrite split_1 by discriminate.
    destruct (cut (js "<!-- WARENKORB -->") _) as [[a b]|] eqn:C';
      [|reflexivity].
    exfalso. apply Hno. apply cut_occurs. congruence.
Qed.

Lemma single_function_without_end_marker :
  Single.extractNettoReceiptData
    (js "Filiale:A<!-- WARENKORB -->B<!-- SUMME -->C")
  = Ok {| Receipt.storeAddress := Some [];
          Receipt.lineItems := [] |}.
Proof. vm_compute. reflexivity. Qed.

(** The script's top-level function passes the payments marker as the
    middle marker and the totals marker as the end marker.  On a receipt
    that has the markers in their usual order the span ends before the
    payments marker, the line-items block is undefined and the call
    throws. *)
Lemma script_on_basic_receipt :
  Script.extractNettoReceiptData basic_receipt = Throw TypeError.
Proof. vm_compute. reflexivity. Qed.

(** ** The address extractor *)

(** C7.  On the sample text the address extractor keeps the second and
    third of the four lines, strips their [<br>] marker, trims them and
    joins them with a comma and a space. *)
Theorem address_of_sample :
  split LF address_sample
  = [ []; js "Netto City-Filiale"; js "<br>Hauptstr. 123, 12345 Berlin";
      js "<br>extra" ]
  /\ Script.extractStoreAddress (Some address_sample)
     = Ok (js "Netto City-Filiale, Hauptstr. 123, 12345 Berlin").
Proof. split; vm_compute; reflexivity. Qed.

(** C8.  On a raw address with fewer than three lines the address extractor
    returns normally and its result is a string: the slice holds fewer than
    two lines, the result is the empty string when the slice is empty and
    the one cleaned line when it holds one. *)
Theorem address_of_short_text (storeAddressRaw : jsstring) :
  length (split LF storeAddressRaw) < 3 ->
  length (slice 1 3 (split LF storeAddressRaw)) < 2
  /\ exists address,
       Script.extractStoreAddress (Some storeAddressRaw) = Ok address
       /\ (slice 1 3 (split LF storeAddressRaw) = [] -> address = [])
       /\ (forall line, slice 1 3 (split LF storeAddressRaw) = [line] ->
             address = trim (replace (js "<br>") [] line)).
Proof.
  intros H. unfold Script.extractStoreAddress. cbn [deref bind].
  destruct (split LF storeAddressRaw) as [|x [|y [|z l]]];
    cbn [length] in H; try lia; unfold slice; cbn [skipn firstn Nat.sub];
    (split; [cbn [length]; lia|]); eexists; (split; [reflexivity|]);
    cbn [map join]; split; try discriminate; try reflexivity.
  - intros line E. injection E as <-. reflexivity.
Qed.

Lemma address_of_short_text_witness :
  length (slice 1 3 (split LF (js "Netto"))) < 2
  /\ exists address,
       Script.extractStoreAddress (Some (js "Netto")) = Ok address
       /\ (slice 1 3 (split LF (js "Netto")) = [] -> address = [])
       /\ (forall line, slice 1 3 (split LF (js "Netto")) = [line] ->
             address = trim (replace (js "<br>") [] line)).
Proof.
  apply (address_of_short_text (js "Netto")). vm_compute. lia.
Defined.

(** ** The patterns always set their capture *)

Section CaptureFacts.

Lemma rep_greedy_defined (p : codeunit -> bool) (k : jsstring -> option caps) :
  (forall s, k s <> Some None) -> forall s, rep_greedy p k s <> Some None.
Proof.
  intros Hk s. induction s as [|x s IH]; cbn [rep_greedy]; [apply Hk|].
  destruct (p x); [|apply Hk].
  destruct (rep_greedy p k s) as [c|] eqn:E; [|apply Hk].
  intros F. apply IH. congruence.
Qed.

Lemma rep_lazy_defined (p : codeunit -> bool) (k : jsstring -> option caps) :
  (forall s, k s <> Some None) -> forall s, rep_lazy p k s <> Some None.
Proof.
  intros Hk s. induction s as [|x s IH]; cbn [rep_lazy].
  - destruct (k []) as [c|] eqn:E; [|discriminate].
    intros F. apply (Hk []). congruence.
  - destruct (k (x :: s)) as [c|] eqn:E.
    + intros F. apply (Hk (x :: s)). congruence.
    + destruct (p x); [assumption|discriminate].
Qed.

Lemma rep_defined g p (k : jsstring -> option caps) :
  (forall s, k s <> Some None) -> forall s, rep g p k s <> Some None.
Proof.
  intros Hk s. destruct g; [now apply rep_greedy_defined|].
  now apply rep_lazy_defined.
Qed.

(** A continuation that never answers with an unset capture keeps that
    property under any pattern. *)
Lemma m_defined_any r : forall k,
  (forall s c, k s c <> Some None) -> forall s c, m r k s c <> Some None.
Proof.
  induction r as [l|cl|cl g|cl g|r1 IH1 r2 IH2|r IH]; intros k Hk s c;
    cbn [m].
  - destruct (starts_with l s); [apply Hk|discriminate].
  - destruct s as [|x s]; [discriminate|].
    destruct (in_class cl x); [apply Hk|discriminate].
  - apply rep_defined. intros s'. apply Hk.
  - destruct s as [|x s]; [discriminate|].
    destruct (in_class cl x); [|discriminate].
    apply rep_defined. intros s'. apply Hk.
  - apply IH1. intros s' c'. now apply IH2.
  - apply IH. intros s' c'. apply Hk.
Qed.

Lemma m_defined_set r : forall k,
  (forall s g, k s (Some g) <> Some None) ->
  forall s g, m r k s (Some g) <> Some None.
Proof.
  induction r as [l|cl|cl g|cl g|r1 IH1 r2 IH2|r IH]; intros k Hk s c;
    cbn [m].
  - destruct (starts_with l s); [apply Hk|discriminate].
  - destruct s as [|x s]; [discriminate|].
    destruct (in_class cl x); [apply Hk|discriminate].
  - apply rep_defined. intros s'. apply Hk.
  - destruct s as [|x s]; [discriminate|].
    destruct (in_class cl x); [|discriminate].
    apply rep_defined. intros s'. apply Hk.
  - apply IH1. intros s' c'. now apply IH2.
  - apply m_defined_any. intros s' c'. apply Hk.
Qed.

Lemma m_defined_group r : forall k,
  has_group r = true ->
  (forall s g, k s (Some g) <> Some None) ->
  forall s c, m r k s c <> Some None.
Proof.
  induction r as [l|cl|cl g|cl g|r1 IH1 r2 IH2|r IH]; intros k Hg Hk s c;
    cbn [has_group] in Hg; try discriminate; cbn [m].
  - destruct (has_group r1) eqn:G1.
    + apply IH1; [reflexivity|]. intros s' g. now apply m_defined_set.
    + apply m_defined_any. intros s' c'. now apply IH2.
  - apply m_defined_any. intros s' c'. apply Hk.
Qed.

Lemma exec_capture r s c :
  has_group r = true -> exec r s = Some c -> exists g, c = Some g.
Proof.
  intros Hg. induction s as [|x s IH]; cbn [exec]; intros H.
  - destruct (m r (fun _ c => Some c) [] None) as [c'|] eqn:E;
      [|discriminate].
    injection H as <-. destruct c' as [g|]; [now exists g|].
    exfalso. revert E. apply m_defined_group; [assumption|discriminate].
  - destruct (m r (fun _ c => Some c) (x :: s) None) as [c'|] eqn:E;
      [|now apply IH].
    injection H as <-. destruct c' as [g|]; [now exists g|].
    exfalso. revert E. apply m_defined_group; [assumption|discriminate].
Qed.

End CaptureFacts.

(** ** The scanner loop *)

Section LoopFacts.

Lemma is_divider_true line :
  is_divider line = true <-> str_match line rowDividerRegex <> None.
Proof.
  unfold is_divider. destruct (str_match line rowDividerRegex); split;
    congruence.
Qed.

Lemma detail_branch_ok st line :
  exists st', detail_branch st line = Ok st'
    /\ lineItems st' = lineItems st
    /\ (searchDetail st = false -> st' = st).
Proof.
  unfold detail_branch. destruct (searchDetail st) eqn:F.
  - destruct (str_match line itemDetailsRegex) as [c|] eqn:E.
    + apply exec_capture in E as [g ->]; [|reflexivity].
      cbn [deref bind]. eexists. split; [reflexivity|]. split; [reflexivity|].
      discriminate.
    + exists st. auto.
  - exists st. auto.
Qed.

Lemma price_branch_ok st line :
  exists st', price_branch st line = Ok st'
    /\ lineItems st' = lineItems st
    /\ (searchPrice st = false -> searchDetail st = false -> st' = st).
Proof.
  unfold price_branch. destruct (searchPrice st) eqn:F.
  - destruct (str_match line priceRegex) as [c|] eqn:E.
    + apply exec_capture in E as [g ->]; [|reflexivity].
      cbn [deref bind]. eexists. split; [reflexivity|]. split; [reflexivity|].
      discriminate.
    + destruct (detail_branch_ok st line) as (st' & H1 & H2 & H3).
      exists st'. repeat split; auto; discriminate.
  - destruct (detail_branch_ok st line) as (st' & H1 & H2 & H3).
    exists st'. auto.
Qed.

Lemma item_branch_ok st line :
  exists st', item_branch st line = Ok st'
    /\ lineItems st' = lineItems st
    /\ (idle st = true -> st' = st).
Proof.
  unfold item_branch, idle. destruct (searchItem st) eqn:F.
  - destruct (str_match line itemRegex) as [c|] eqn:E.
    + apply exec_capture in E as [g ->]; [|reflexivity].
      cbn [deref bind]. eexists. split; [reflexivity|]. split; [reflexivity|].
      discriminate.
    + destruct (price_branch_ok st line) as (st' & H1 & H2 & H3).
      exists st'. repeat split; auto; discriminate.
  - destruct (price_branch_ok st line) as (st' & H1 & H2 & H3).
    exists st'. repeat split; auto. cbn [negb andb].
    destruct (searchPrice st), (searchDetail st); try discriminate.
    auto.
Qed.

(** One turn of the loop never throws.  A divider line flushes and resets;
    any other line leaves the output array alone, and leaves everything
    alone in the idle state. *)
Lemma loop_body_ok st line :
  exists st', loop_body st line = Ok st'
    /\ (is_divider line = true -> st' = on_divider st)
    /\ (is_divider line = false ->
        lineItems st' = lineItems st /\ (idle st = true -> st' = st)).
Proof.
  unfold loop_body, is_divider.
  destruct (str_match line rowDividerRegex) as [c|].
  - exists (on_divider st). repeat split; auto; discriminate.
  - destruct (item_branch_ok st line) as (st' & H1 & H2 & H3).
    exists st'. repeat split; auto; discriminate.
Qed.

Lemma for_of_ok lines : forall st, exists st', for_of st lines = Ok st'.
Proof.
  induction lines as [|line rest IH]; intros st; cbn [for_of].
  - now exists st.
  - destruct (loop_body_ok st line) as (st1 & -> & _). cbn [bind]. apply IH.
Qed.

Lemma flush_trace_length lines : forall st,
  length (flush_trace st lines) = count_dividers lines + 1.
Proof.
  unfold count_dividers.
  induction lines as [|line rest IH]; intros st; cbn [flush_trace filter].
  - reflexivity.
  - destruct (loop_body_ok st line) as (st1 & -> & _).
    rewrite length_app, IH. destruct (is_divider line); cbn [length]; lia.
Qed.

(** What the loop leaves in the output array, followed by the push after
    the loop, is the data-carrying part of the flush trace. *)
Lemma for_of_output lines : forall st st',
  for_of st lines = Ok st' ->
  push_if_data st' = lineItems st ++ filter hasData (flush_trace st lines).
Proof.
  induction lines as [|line rest IH]; intros st st'; cbn [for_of flush_trace].
  - intros [= <-]. unfold push_if_data. cbn [filter].
    destruct (hasData (currentLineItem st)); [reflexivity|].
    now rewrite app_nil_r.
  - destruct (loop_body_ok st line) as (st1 & -> & Hd & Hn). cbn [bind].
    intros H. rewrite (IH _ _ H), filter_app.
    destruct (is_divider line).
    + rewrite (Hd eq_refl). cbn [on_divider lineItems filter].
      unfold push_if_data.
      destruct (hasData (currentLineItem st)); cbn [app];
        now rewrite <- ?app_assoc, ?app_nil_r.
    + destruct (Hn eq_refl) as [-> _]. reflexivity.
Qed.

Lemma scan_lines_output lines :
  scan_lines lines = Ok (filter hasData (flush_trace initial lines)).
Proof.
  unfold scan_lines. destruct (for_of_ok lines initial) as [st' H].
  rewrite H. cbn [bind]. now rewrite (for_of_output _ _ _ H).
Qed.

(** The same for the extraction from the raw block: the lines are the
    filtered lines of the block. *)
Lemma extractLineItems_output raw :
  Script.extractLineItems (Some raw)
  = Ok (filter hasData
          (flush_trace initial (filter_lines (split LF raw)))).
Proof.
  unfold Script.extractLineItems, Script.extractLineItemsArray.
  cbn [deref bind]. apply scan_lines_output.
Qed.

(** C4.  The scanner returns normally on every array of lines; with [N]
    divider lines it emits at most [N + 1] items, and they are the items of
    the flush trace that carry data, in the order of the trace and with
    their repetitions. *)
Theorem at_most_one_item_per_flush (lines : list jsstring) :
  exists items,
    scan_lines lines = Ok items
    /\ length items <= count_dividers lines + 1
    /\ items = filter hasData (flush_trace initial lines).
Proof.
  exists (filter hasData (flush_trace initial lines)).
  split; [apply scan_lines_output|]. split; [|reflexivity].
  rewrite <- (flush_trace_length lines initial). apply filter_length_le.
Qed.

Lemma for_of_app pre rest : forall st,
  for_of st (pre ++ rest) = (st' <- for_of st pre ;; for_of st' rest).
Proof.
  induction pre as [|line pre IH]; intros st; cbn [app for_of bind].
  - reflexivity.
  - destruct (loop_body st line) as [st1|e]; cbn [bind]; [apply IH|].
    reflexivity.
Qed.

Lemma for_of_idle pre : forall st,
  idle st = true ->
  forallb (fun line => negb (is_divider line)) pre = true ->
  for_of st pre = Ok st.
Proof.
  induction pre as [|line pre IH]; intros st Hi Hp; cbn [for_of].
  - reflexivity.
  - cbn [forallb] in Hp. apply andb_prop in Hp as [Hl Hp].
    apply negb_true_iff in Hl.
    destruct (loop_body_ok st line) as (st1 & -> & _ & Hn). cbn [bind].
    destruct (Hn Hl) as [_ E]. rewrite (E Hi). now apply IH.
Qed.

(** C9.  The scanner starts idle, and lines before the first divider line
    leave its variables as they are: no field of the item in progress is
    written, and the output is that of the lines from the first divider
    on. *)
Theorem lines_before_first_divider_ignored (pre rest : list jsstring) :
  forallb (fun line => negb (is_divider line)) pre = true ->
  idle initial = true
  /\ for_of initial pre = Ok initial
  /\ scan_lines (pre ++ rest) = scan_lines rest.
Proof.
  intros Hp. split; [reflexivity|].
  pose proof (for_of_idle pre initial eq_refl Hp) as H.
  split; [exact H|].
  unfold scan_lines. now rewrite for_of_app, H.
Qed.

Lemma lines_before_first_divider_ignored_witness :
  idle initial = true
  /\ for_of initial milk_rows = Ok initial
  /\ scan_lines (milk_rows ++ divider_row :: bread_rows)
     = scan_lines (divider_row :: bread_rows).
Proof.
  apply (lines_before_first_divider_ignored milk_rows
           (divider_row :: bread_rows)).
  vm_compute. reflexivity.
Defined.

(** Equal items are all kept, in input order. *)
Lemma repeated_items_kept :
  scan_lines (divider_row :: milk_rows ++ divider_row :: bread_rows
                ++ divider_row :: milk_rows)
  = Ok [milk_item; bread_item; milk_item].
Proof. vm_compute. reflexivity. Qed.

(** The first flush never carries data, so the bound of one item per
    divider line holds as well. *)
Lemma at_most_one_item_per_divider lines :
  length (filter hasData (flush_trace initial lines))
  <= count_dividers lines.
Proof.
  assert (G : forall pre rest,
             forallb (fun line => negb (is_divider line)) pre = true ->
             flush_trace initial (pre ++ rest) = flush_trace initial rest
             /\ count_dividers (pre ++ rest) = count_dividers rest).
  { induction pre as [|line pre IH]; intros rest Hp; [now split|].
    cbn [forallb] in Hp. apply andb_prop in Hp as [Hl Hp].
    apply negb_true_iff in Hl. cbn [app flush_trace].
    destruct (loop_body_ok initial line) as (st1 & -> & _ & Hn).
    destruct (Hn Hl) as [_ E]. rewrite (E eq_refl), Hl. cbn [app].
    unfold count_dividers. cbn [filter]. rewrite Hl.
    apply (IH rest Hp). }
  assert (Hsplit : forall l,
             (exists pre d rest, l = pre ++ d :: rest
                /\ forallb (fun line => negb (is_divider line)) pre = true
                /\ is_divider d = true)
             \/ forallb (fun line => negb (is_divider line)) l = true).
  { induction l as [|x l IH]; [now right|].
    destruct (is_divider x) eqn:Dx.
    - left. now exists [], x, l.
    - destruct IH as [(pre & d & rest & -> & Hp & Hd)|Hl].
      + left. exists (x :: pre), d, rest. cbn [forallb].
        now rewrite Dx, Hp.
      + right. cbn [forallb]. now rewrite Dx, Hl. }
  destruct (Hsplit lines) as [(pre & d & rest & -> & Hp & Hd)|Hl].
  - destruct (G pre (d :: rest) Hp) as [-> ->].
    cbn [flush_trace].
    destruct (loop_body_ok initial d) as (st1 & -> & _).
    rewrite Hd.
    change (filter hasData ([currentLineItem initial] ++ flush_trace st1 rest))
      with (filter hasData (flush_trace st1 rest)).
    assert (Hc : count_dividers (d :: rest) = S (count_dividers rest))
      by (unfold count_dividers; cbn [filter]; now rewrite Hd).
    pose proof (flush_trace_length rest st1) as L.
    pose proof (filter_length_le hasData (flush_trace st1 rest)). lia.
  - destruct (G lines [] Hl) as [E _]. rewrite app_nil_r in E.
    rewrite E. cbn. lia.
Qed.

Lemma hasData_truthy it :
  hasData it = true <->
  string_truthy (description it) = true
  \/ price_truthy (totalPrice it) = true
  \/ string_truthy (details it) = true.
Proof.
  unfold hasData. rewrite !orb_true_iff. tauto.
Qed.

(** C2, as amended.  An item of the flush trace is in the output exactly
    when one of its fields is truthy: a non-empty description, a price
    other than zero and NaN, or non-empty details.  The item with three
    null fields is never in the output. *)
Theorem emitted_iff_truthy_field (lines : list jsstring) :
  exists items,
    scan_lines lines = Ok items
    /\ (forall it,
          In it items <->
          In it (flush_trace initial lines)
          /\ (string_truthy (description it) = true
              \/ price_truthy (totalPrice it) = true
              \/ string_truthy (details it) = true))
    /\ ~ In nullItem items.
Proof.
  exists (filter hasData (flush_trace initial lines)).
  split; [apply scan_lines_output|]. split.
  - intros it. rewrite filter_In, hasData_truthy. reflexivity.
  - rewrite filter_In. intros [_ H]. discriminate.
Qed.

(** C2, the claim as stated, fails: after a divider row and a description
    cell that holds one space, the item in progress at the end of the input
    has the empty string, not null, as its description, and it is not
    emitted. *)
Lemma blank_description_not_emitted :
  flush_trace initial [divider_row; td "font-size:12px;" " "]
  = [ nullItem;
      {| description := Some []; totalPrice := None; details := None |} ]
  /\ scan_lines [divider_row; td "font-size:12px;" " "] = Ok [].
Proof. split; vm_compute; reflexivity. Qed.

(** C5, as amended.  An item in progress whose description is a non-empty
    string and whose price and details are null is emitted by the push at
    the end of the input, and it is emitted by the next divider line,
    whatever follows it. *)
Theorem description_only_item_emitted
    (st : locals) (d line : jsstring) (rest : list jsstring) :
  currentLineItem st
  = {| description := Some d; totalPrice := None; details := None |} ->
  d <> [] ->
  push_if_data st = lineItems st ++ [currentLineItem st]
  /\ (is_divider line = true ->
      exists st' later,
        for_of st (line :: rest) = Ok st'
        /\ push_if_data st'
           = lineItems st ++ currentLineItem st :: later).
Proof.
  intros Hc Hd.
  assert (Hdata : hasData (currentLineItem st) = true).
  { rewrite Hc. destruct d; [congruence|reflexivity]. }
  split.
  - unfold push_if_data. now rewrite Hdata.
  - intros Hl. destruct (for_of_ok (line :: rest) st) as [st' H].
    exists st', (filter hasData (flush_trace (on_divider st) rest)).
    split; [exact H|].
    rewrite (for_of_output _ _ _ H). cbn [flush_trace].
    destruct (loop_body_ok st line) as (st1 & -> & Hs & _).
    rewrite (Hs Hl), Hl. cbn [app filter]. rewrite Hdata. reflexivity.
Qed.

Lemma description_only_item_emitted_witness :
  let st := {| lineItems := [];
               currentLineItem :=
                 {| description := Some (js "Brot"); totalPrice := None;
                    details := None |};
               searchItem := false; searchPrice := true;
               searchDetail := false |} in
  push_if_data st = lineItems st ++ [currentLineItem st]
  /\ (is_divider divider_row = true ->
      exists st' later,
        for_of st (divider_row :: milk_rows) = Ok st'
        /\ push_if_data st'
           = lineItems st ++ currentLineItem st :: later).
Proof.
  intros st.
  apply (description_only_item_emitted st (js "Brot") divider_row milk_rows).
  - reflexivity.
  - vm_compute. discriminate.
Defined.

(** C5, the claim as stated, fails: a description cell that holds only
    blanks leaves an item whose description is the empty string, not null,
    with price and details null, and neither the next divider row nor the
    end of the input emits it. *)
Lemma blank_partial_item_dropped :
  for_of initial [divider_row; td "font-size:12px;" "   "]
  = Ok {| lineItems := [];
          currentLineItem :=
            {| description := Some []; totalPrice := None; details := None |};
          searchItem := false; searchPrice := true; searchDetail := false |}
  /\ scan_lines [divider_row; td "font-size:12px;" "   "; divider_row]
     = Ok []
  /\ scan_lines [divider_row; td "font-size:12px;" "   "] = Ok [].
Proof. repeat split; vm_compute; reflexivity. Qed.

End LoopFacts.

(** ** The scenario with one item block *)

Lemma literal_prices :
  totalPrice milk_item = Some (Prim2SF 1.29%float)
  /\ totalPrice bread_item = Some (Prim2SF 2.49%float).
Proof. split; vm_compute; reflexivity. Qed.

(** C1.  The code does not do what the claim says.  On the three rows of
    the item block alone (description, price, details) the extraction
    returns no line item, because no divider row precedes them; the one
    item of the claim comes out only when a divider row is put in front.
    On the mock email of the basic receipt test, whose first block has no
    divider row before it, only the second item is returned. *)
Theorem item_block_without_divider :
  Script.extractLineItems (Some (join LF milk_rows)) = Ok []
  /\ Script.extractLineItems (Some (join LF (divider_row :: milk_rows)))
     = Ok [milk_item]
  /\ Single.extractNettoReceiptData basic_receipt
     = Ok {| Receipt.storeAddress :=
               Some (js "Netto City-Filiale, Hauptstr. 123, 12345 Berlin");
             Receipt.lineItems := [bread_item] |}.
Proof. repeat split; vm_compute; reflexivity. Qed.

(** ** Which strings the patterns match *)

Section MatchFacts.







(** *** The order in which the matcher tries the alternatives *)






Lemma firstn_consumed (u v : jsstring) :
  firstn (length (u ++ v) - length v) (u ++ v) = u.
Proof.
  rewrite length_app, Nat.add_sub. rewrite firstn_app, Nat.sub_diag.
  cbn [firstn]. now rewrite app_nil_r, firstn_all.
Qed.














Lemma loop_body_scanner_state st line st' :
  scanner_state st -> loop_body st line = Ok st' -> scanner_state st'.
Proof.
  unfold scanner_state, loop_body, item_branch, price_branch, detail_branch,
    nullItem.
  destruct st as [items [d p t] si sp sd]. cbn [currentLineItem searchItem
    searchPrice searchDetail lineItems description totalPrice details].
  intros I H.
  destruct (str_match line rowDividerRegex).
  { injection H as <-. cbn. reflexivity. }
  destruct si, sp, sd; try contradiction;
    repeat match type of H with
    | context [str_match line ?r] =>
        destruct (str_match line r) as [[?|]|]; cbn [deref bind] in H
    end;
    try discriminate; injection H as <-; cbn;
    repeat match goal with
    | E : _ \/ _ |- _ => destruct E
    | E : _ /\ _ |- _ => destruct E
    | E : mkLineItem _ _ _ = mkLineItem _ _ _ |- _ =>
        injection E as -> -> ->
    end;
    try (left; reflexivity); try (right; repeat split; congruence);
    try (repeat split; congruence).
Qed.

Lemma for_of_scanner_state lines : forall st st',
  scanner_state st -> for_of st lines = Ok st' -> scanner_state st'.
Proof.
  induction lines as [|line lines IH]; intros st st' I; cbn [for_of].
  - now intros [= <-].
  - destruct (loop_body st line) as [st1|] eqn:E; cbn [bind];
      [|discriminate].
    apply IH. now apply (loop_body_scanner_state st line).
Qed.







End MatchFacts.

(** ** Prices *)

Section PriceFacts.

Lemma digit_cases c :
  isDigit c = true ->
  In c [48; 49; 50; 51; 52; 53; 54; 55; 56; 57]%N.
Proof.
  unfold isDigit, in_class. intros H. apply andb_prop in H as [H1 H2].
  apply N.leb_le in H1, H2. cbn [In]. lia.
Qed.

Ltac each_digit H :=
  apply digit_cases in H; cbn [In] in H;
  repeat (destruct H as [H|H]); try contradiction; subst.

Lemma digit_not_space c : isDigit c = true -> isWhiteSpace c = false.
Proof. intros H. each_digit H; reflexivity. Qed.

Lemma digits_lack c ds :
  isDigit c = false -> forallb isDigit ds = true -> lacks c ds = true.
Proof.
  intros Hc. induction ds as [|d ds IH]; [reflexivity|].
  cbn [forallb lacks]. intros H. apply andb_prop in H as [Hd Hds].
  fold (lacks c ds). rewrite (IH Hds), andb_true_r.
  apply negb_true_iff, N.eqb_neq. intros ->. congruence.
Qed.

Lemma cut_char c a b :
  lacks c a = true -> cut [c] (a ++ c :: b) = Some (a, b).
Proof.
  induction a as [|x a IH]; intros H.
  - cbn [app]. destruct b; cbn [cut starts_with]; now rewrite N.eqb_refl.
  - cbn [lacks forallb] in H. apply andb_prop in H as [Hx Ha].
    apply negb_true_iff in Hx. rewrite N.eqb_sym in Hx.
    cbn [app cut starts_with]. rewrite Hx. cbn [andb].
    now rewrite (IH Ha).
Qed.

Lemma trim_digits c s d :
  isDigit c = true -> isDigit d = true ->
  trim (c :: s ++ [d]) = c :: s ++ [d].
Proof.
  intros Hc Hd. unfold trim, trimEnd. cbn [trimStart].
  rewrite (digit_not_space c Hc).
  change (c :: s ++ [d]) with ((c :: s) ++ [d]).
  rewrite rev_app_distr. cbn [rev app trimStart].
  rewrite (digit_not_space d Hd).
  change (d :: rev s ++ [c]) with ([d] ++ rev (c :: s)).
  rewrite rev_app_distr, rev_involutive. reflexivity.
Qed.

Lemma span_digits_stop ds c rest :
  forallb isDigit ds = true -> isDigit c = false ->
  span_digits (ds ++ c :: rest) = (ds, c :: rest).
Proof.
  intros Hds Hc. induction ds as [|d ds IH]; cbn [app span_digits].
  - now rewrite Hc.
  - cbn [forallb] in Hds. apply andb_prop in Hds as [Hd Hds].
    now rewrite Hd, (IH Hds).
Qed.

Lemma span_digits_all ds :
  forallb isDigit ds = true -> span_digits ds = (ds, []).
Proof.
  induction ds as [|d ds IH]; cbn [span_digits forallb]; [reflexivity|].
  intros H. apply andb_prop in H as [Hd Hds]. now rewrite Hd, (IH Hds).
Qed.

Lemma parseFloat_price c ip d1 d2 :
  forallb isDigit (c :: ip) = true -> isDigit d1 = true -> isDigit d2 = true ->
  parseFloat ((c :: ip) ++ js "." ++ [d1; d2])
  = round_ratio false (decimal_value ((c :: ip) ++ [d1; d2])) 100.
Proof.
  intros Hip H1 H2.
  assert (Hc : isDigit c = true) by (cbn [forallb] in Hip; now apply andb_prop in Hip).
  assert (E : parseFloat ((c :: ip) ++ js "." ++ [d1; d2])
              = unsigned_literal false ((c :: ip) ++ js "." ++ [d1; d2])).
  { unfold parseFloat. cbn [app trimStart]. rewrite (digit_not_space c Hc).
    clear Hip. each_digit Hc; reflexivity. }
  rewrite E. unfold unsigned_literal.
  assert (I : starts_with (js "Infinity") ((c :: ip) ++ js "." ++ [d1; d2]) = false).
  { clear Hip E. each_digit Hc; reflexivity. }
  rewrite I. change (js ".") with [46%N]. cbn [app].
  change (c :: ip ++ 46%N :: [d1; d2]) with ((c :: ip) ++ 46%N :: [d1; d2]).
  rewrite span_digits_stop by (auto).
  cbn [fst snd]. rewrite span_digits_all by (cbn [forallb]; now rewrite H1, H2).
  cbn [fst snd exponent_part length]. reflexivity.
Qed.

Lemma decimal_digits_value ds :
  decimal_digits (decimal_value ds)
  = digits_of_uint (Decimal.unorm (uint_of_digits ds)).
Proof.
  unfold decimal_digits, decimal_value.
  now rewrite N2Z.id, DecimalN.Unsigned.to_of.
Qed.

Lemma digits_of_uint_of_digits ds :
  forallb isDigit ds = true -> digits_of_uint (uint_of_digits ds) = ds.
Proof.
  induction ds as [|d ds IH]; [reflexivity|].
  cbn [forallb]. intros H. apply andb_prop in H as [Hd Hds].
  specialize (IH Hds).
  each_digit Hd; cbn [uint_of_digits]; unfold digit_of_codeunit;
    cbn [N.sub Pos.sub_mask Pos.succ_double_mask Pos.double_mask
         Pos.double_pred_mask Pos.pred_double digits_of_uint];
    now rewrite IH.
Qed.

Lemma unorm_head c ds :
  isDigit c = true -> c <> 48%N ->
  Decimal.unorm (uint_of_digits (c :: ds)) = uint_of_digits (c :: ds).
Proof. intros Hc Hz. each_digit Hc; try congruence; reflexivity. Qed.

Lemma firstn_app_exact (a b : jsstring) : firstn (length a) (a ++ b) = a.
Proof. induction a; cbn [length firstn app]; congruence. Qed.

Lemma layout_canonical c ip d1 d2 :
  forallb isDigit (c :: ip) = true -> isDigit d1 = true ->
  isDigit d2 = true -> c <> 48%N ->
  fixed_layout 2 (decimal_value ((c :: ip) ++ [d1; d2]))
  = (c :: ip) ++ js "." ++ [d1; d2].
Proof.
  intros Hip H1 H2 Hz.
  assert (Hc : isDigit c = true)
    by (cbn [forallb] in Hip; now apply andb_prop in Hip).
  assert (Hall : forallb isDigit ((c :: ip) ++ [d1; d2]) = true).
  { rewrite forallb_app, Hip. cbn [forallb]. now rewrite H1, H2. }
  assert (D : decimal_digits (decimal_value ((c :: ip) ++ [d1; d2]))
              = (c :: ip) ++ [d1; d2]).
  { rewrite decimal_digits_value.
    change ((c :: ip) ++ [d1; d2]) with (c :: ip ++ [d1; d2]) at 1.
    rewrite (unorm_head c _ Hc Hz).
    now apply (digits_of_uint_of_digits ((c :: ip) ++ [d1; d2])). }
  unfold fixed_layout. rewrite D.
  assert (L : length ((c :: ip) ++ [d1; d2]) = length (c :: ip) + 2)
    by apply length_app.
  set (ds := (c :: ip) ++ [d1; d2]) in *.
  replace (2 + 1 - length ds) with 0 by (rewrite L; cbn [length]; lia).
  change (repeat 48%N 0 ++ ds) with ds. unfold codeunit in L.
  rewrite L, Nat.add_sub. unfold ds.
  now rewrite firstn_app_exact, skipn_app_exact.
Qed.

Lemma layout_zero_int d1 d2 :
  isDigit d1 = true -> isDigit d2 = true ->
  fixed_layout 2 (decimal_value ([48%N] ++ [d1; d2]))
  = [48%N] ++ js "." ++ [d1; d2].
Proof. intros H1 H2. each_digit H1; each_digit H2; reflexivity. Qed.

(** The model of [parseFloat] gives the values the kernel's binary64
    literals have, also where rounding is delicate: a tie between two
    neighbours, the largest finite value, the subnormal range and
    overflow. *)
Lemma parseFloat_samples :
  parseFloat (js "1.29") = Prim2SF 1.29%float
  /\ parseFloat (js "9007199254740993") = Prim2SF 9007199254740993%float
  /\ parseFloat (js "  -12.5e-3xyz") = Prim2SF (-0.0125)%float
  /\ parseFloat (js "1.7976931348623157e308")
     = Prim2SF 1.7976931348623157e308%float
  /\ parseFloat (js "2.2250738585072011e-308")
     = Prim2SF 2.2250738585072011e-308%float
  /\ parseFloat (js "5e-324") = Prim2SF 5e-324%float
  /\ parseFloat (js "1e400") = Prim2SF infinity
  /\ parseFloat (js "") = S754_nan.
Proof. repeat split; vm_compute; reflexivity. Qed.

Lemma toFixed_samples :
  toFixed 2 (Prim2SF 1.005%float) = Some (js "1.00")
  /\ toFixed 2 (Prim2SF 0.05%float) = Some (js "0.05")
  /\ toFixed 2 (Prim2SF 2.5%float) = Some (js "2.50")
  /\ toFixed 0 (Prim2SF 2.5%float) = Some (js "3")
  /\ toFixed 2 (Prim2SF (-1.5)%float) = Some (js "-1.50")
  /\ toFixed 2 (Prim2SF 1e21%float) = None.
Proof. repeat split; vm_compute; reflexivity. Qed.

Section Rounding.
Local Open Scope Z_scope.

Lemma nearest_even_close N D :
  0 < D -> 0 <= N -> 2 * Z.abs (D * nearest_even N D - N) <= D.
Proof.
  intros HD HN. unfold nearest_even.
  pose proof (Z.div_mod N D ltac:(lia)) as E.
  pose proof (Z.mod_pos_bound N D HD) as B.
  set (q := N / D) in *. set (r := N mod D) in *.
  destruct (Z.ltb_spec (2 * r) D); [lia|].
  destruct (Z.ltb_spec D (2 * r)); [lia|].
  destruct (Z.even q); lia.
Qed.

Lemma round_ratio_cents n :
  0 < n < 100 * 2 ^ 46 ->
  exists mx e,
    round_ratio false n 100 = S754_finite false mx e
    /\ e < 0
    /\ 2 * Z.abs (100 * Z.pos mx - n * 2 ^ (- e)) < 2 ^ (- e).
Proof.
  intros [Hn0 Hn]. unfold round_ratio.
  destruct (Z.leb_spec n 0); [lia|].
  change (Z.log2 100) with 6.
  assert (HL : 0 <= Z.log2 n < 53).
  { split; [apply Z.log2_nonneg|]. apply Z.log2_lt_pow2; [lia|].
    change (2 ^ 53) with 9007199254740992.
    change (2 ^ 46) with 70368744177664 in Hn. lia. }
  set (e0 := Z.log2 n - 6 - 53) in *.
  set (e1 := if fst (scale n 100 e0) / snd (scale n 100 e0) <? 2 ^ 53
             then e0 else e0 + 1).
  assert (He1 : -59 <= e1 <= -7).
  { unfold e1, scale. destruct (Z.leb_spec 0 e0); [unfold e0 in *; lia|].
    cbn [fst snd]. destruct (Z.ltb_spec (n * 2 ^ (- e0) / 100) (2 ^ 53)).
    - unfold e0 in *. lia.
    - assert (e0 <> -7); [|unfold e0 in *; lia].
      intros E7. rewrite E7 in *. change (2 ^ (- -7)) with 128 in *.
      assert (n * 128 / 100 < 2 ^ 53); [|lia].
      apply Z.div_lt_upper_bound; [lia|].
      change (2 ^ 53) with 9007199254740992.
      change (2 ^ 46) with 70368744177664 in Hn. lia. }
  clearbody e1. clear e0.
  rewrite (Z.max_l e1 (-1074)) by lia.
  unfold scale. destruct (Z.leb_spec 0 e1); [lia|]. cbn [fst snd].
  pose proof (nearest_even_close (n * 2 ^ (- e1)) 100 ltac:(lia)) as C.
  assert (HE : 128 <= 2 ^ (- e1)).
  { change 128 with (2 ^ 7). apply Z.pow_le_mono_r; lia. }
  set (E := 2 ^ (- e1)) in *.
  specialize (C ltac:(nia)).
  set (mz := nearest_even (n * E) 100) in *.
  assert (Hmz : 0 < mz) by nia.
  destruct (Z.eqb_spec mz 0); [lia|].
  destruct (Z.eqb_spec mz (2 ^ 53)) as [E53|N53].
  - destruct (Z.ltb_spec 971 (e1 + 1)); [lia|].
    exists (Z.to_pos (2 ^ 52)), (e1 + 1). split; [reflexivity|].
    split; [lia|].
    assert (E2 : E = 2 * 2 ^ (- (e1 + 1))).
    { unfold E. replace (- e1) with (Z.succ (- (e1 + 1))) by lia.
      apply Z.pow_succ_r. lia. }
    set (E' := 2 ^ (- (e1 + 1))) in *.
    rewrite E53 in C. change (Z.pos (Z.to_pos (2 ^ 52))) with (2 ^ 52).
    change (2 ^ 53) with (2 * 2 ^ 52) in C.
    set (P := 2 ^ 52) in *. lia.
  - destruct (Z.ltb_spec 971 e1); [lia|].
    exists (Z.to_pos mz), e1. split; [reflexivity|]. split; [lia|].
    rewrite Z2Pos.id by lia. fold E. lia.
Qed.

Lemma toFixed2_close mx e n :
  e < 0 -> 0 <= n < 100 * 2 ^ 46 ->
  2 * Z.abs (100 * Z.pos mx - n * 2 ^ (- e)) < 2 ^ (- e) ->
  toFixed 2 (S754_finite false mx e) = Some (fixed_layout 2 n).
Proof.
  intros He Hn C. unfold toFixed.
  destruct (Z.leb_spec 0 e); [lia|].
  assert (E2 : 2 ^ (- e + 1) = 2 * 2 ^ (- e)).
  { replace (- e + 1) with (Z.succ (- e)) by lia. apply Z.pow_succ_r. lia. }
  rewrite E2. clear E2.
  assert (HE : 0 < 2 ^ (- e)) by (apply Z.pow_pos_nonneg; lia).
  set (E := 2 ^ (- e)) in *.
  change (2 ^ 46) with 70368744177664 in Hn.
  change (10 ^ 21) with 1000000000000000000000.
  change (10 ^ Z.of_nat 2) with 100.
  destruct (Z.leb_spec (1000000000000000000000 * E) (Z.pos mx)); [nia|].
  cbn [app]. do 2 f_equal. symmetry.
  apply (Z.div_unique _ _ _ (2 * Z.pos mx * 100 + E - 2 * E * n)); lia.
Qed.

Lemma toFixed2_cents n :
  0 <= n < 100 * 2 ^ 46 ->
  toFixed 2 (round_ratio false n 100) = Some (fixed_layout 2 n).
Proof.
  intros Hn. destruct (Z.eq_dec n 0) as [->|Hz]; [reflexivity|].
  destruct (round_ratio_cents n ltac:(lia)) as (mx & e & -> & He & C).
  now apply toFixed2_close.
Qed.

End Rounding.

(** C6, as amended.  A price text of one or more digits, a comma and two
    digits is in the language of the captured group of the price pattern;
    the scanner turns it into the same text with a point for the comma;
    and when the integer part has no superfluous leading zero and the
    amount is below [2^46], parsing that text and printing the number with
    two fixed decimals gives the text back. *)
Theorem price_round_trip (ip : jsstring) (d1 d2 : codeunit) :
  ip <> [] -> forallb isDigit ip = true ->
  isDigit d1 = true -> isDigit d2 = true ->
  (hd 0%N ip <> 48%N \/ ip = [48%N]) ->
  (decimal_value (ip ++ [d1; d2]) < 100 * 2 ^ 46)%Z ->
  lang (Plus Digit true +++ Lit (js ",") +++ One Digit +++ One Digit)
    (ip ++ js "," ++ [d1; d2])
  /\ replace (js ",") (js ".") (trim (ip ++ js "," ++ [d1; d2]))
     = ip ++ js "." ++ [d1; d2]
  /\ toFixed 2
       (parseFloat
          (replace (js ",") (js ".") (trim (ip ++ js "," ++ [d1; d2]))))
     = Some (ip ++ js "." ++ [d1; d2]).
Proof.
  intros Hne Hip H1 H2 Hcanon Hlt.
  destruct ip as [|c ip]; [congruence|].
  assert (Hc : isDigit c = true)
    by (cbn [forallb] in Hip; now apply andb_prop in Hip).
  assert (R : replace (js ",") (js ".") (trim ((c :: ip) ++ js "," ++ [d1; d2]))
              = (c :: ip) ++ js "." ++ [d1; d2]).
  { assert (T : (c :: ip) ++ js "," ++ [d1; d2]
                = c :: (ip ++ [44%N; d1]) ++ [d2])
      by (now rewrite <- app_assoc).
    rewrite T, (trim_digits c _ d2 Hc H2), <- T.
    unfold replace. change (js ",") with [44%N].
    change ([44%N] ++ [d1; d2]) with (44%N :: [d1; d2]).
    rewrite cut_char; [reflexivity|].
    now apply digits_lack. }
  split; [|split].
  - cbn [lang]. exists (c :: ip), (js "," ++ [d1; d2]).
    split; [reflexivity|]. split; [split; [discriminate|exact Hip]|].
    exists (js ","), [d1; d2]. split; [reflexivity|]. split; [reflexivity|].
    exists [d1], [d2]. split; [reflexivity|].
    split; [now exists d1|now exists d2].
  - exact R.
  - rewrite R, parseFloat_price by assumption.
    rewrite toFixed2_cents.
    + f_equal. destruct Hcanon as [Hh|E].
      * cbn [hd] in Hh. now apply layout_canonical.
      * injection E as -> ->. now apply layout_zero_int.
    + split; [|exact Hlt]. unfold decimal_value. lia.
Qed.

Lemma price_round_trip_witness :
  lang (Plus Digit true +++ Lit (js ",") +++ One Digit +++ One Digit)
    (js "1" ++ js "," ++ [50%N; 57%N])
  /\ replace (js ",") (js ".") (trim (js "1" ++ js "," ++ [50%N; 57%N]))
     = js "1" ++ js "." ++ [50%N; 57%N]
  /\ toFixed 2
       (parseFloat
          (replace (js ",") (js ".")
             (trim (js "1" ++ js "," ++ [50%N; 57%N]))))
     = Some (js "1" ++ js "." ++ [50%N; 57%N]).
Proof.
  apply (price_round_trip (js "1") 50%N 57%N).
  - vm_compute. discriminate.
  - reflexivity.
  - reflexivity.
  - reflexivity.
  - left. vm_compute. discriminate.
  - vm_compute. reflexivity.
Defined.

(** C6, the claim as stated, fails.  Both texts are captured by the price
    pattern; the first loses its leading zero, and the second, the
    smallest amount above [2^46], comes back with another last digit. *)
Lemma price_round_trip_fails :
  str_match (td "text-align:right;" "01,29&nbsp;") priceRegex
  = Some (Some (js "01,29"))
  /\ toFixed 2 (parseFloat (replace (js ",") (js ".") (trim (js "01,29"))))
     = Some (js "1.29")
  /\ str_match (td "text-align:right;" "70368744177664,01&nbsp;") priceRegex
     = Some (Some (js "70368744177664,01"))
  /\ toFixed 2
       (parseFloat
          (replace (js ",") (js ".") (trim (js "70368744177664,01"))))
     = Some (js "70368744177664.02").
Proof. repeat split; vm_compute; reflexivity. Qed.

End PriceFacts.

(** ** What the patterns capture *)

Section CaptureSoundness.

Lemma rep_greedy_sound (p : codeunit -> bool) (k : jsstring -> option caps) s res :
  rep_greedy p k s = Some res ->
  exists u v, s = u ++ v /\ forallb p u = true /\ k v = Some res.
Proof.
  induction s as [|x s IH]; cbn [rep_greedy]; intros H.
  - now exists [], [].
  - destruct (p x) eqn:Px; [|now exists [], (x :: s)].
    destruct (rep_greedy p k s) as [r|] eqn:E; [|now exists [], (x :: s)].
    injection H as ->. destruct (IH eq_refl) as (u & v & -> & Hu & Hv).
    exists (x :: u), v. cbn [forallb app]. now rewrite Px, Hu.
Qed.

Lemma rep_lazy_sound (p : codeunit -> bool) (k : jsstring -> option caps) s res :
  rep_lazy p k s = Some res ->
  exists u v, s = u ++ v /\ forallb p u = true /\ k v = Some res.
Proof.
  induction s as [|x s IH]; cbn [rep_lazy]; intros H.
  - destruct (k []) as [r|] eqn:E; [|discriminate].
    exists [], []. repeat split. congruence.
  - destruct (k (x :: s)) as [r|] eqn:E.
    + exists [], (x :: s). repeat split. congruence.
    + destruct (p x) eqn:Px; [|discriminate].
      destruct (IH H) as (u & v & -> & Hu & Hv).
      exists (x :: u), v. cbn [forallb app]. now rewrite Px, Hu.
Qed.

Lemma rep_sound g p (k : jsstring -> option caps) s res :
  rep g p k s = Some res ->
  exists u v, s = u ++ v /\ forallb p u = true /\ k v = Some res.
Proof.
  destruct g; [apply rep_greedy_sound|apply rep_lazy_sound].
Qed.

(** A successful match consumes a string of the pattern, and the capture
    it hands on is the one it received or a string of the group. *)
Lemma m_sound r : forall k s c res,
  m r k s c = Some res ->
  exists u v c',
    s = u ++ v /\ lang r u /\ k v c' = Some res
    /\ (c' = c \/ exists g, c' = Some g /\ group_lang r g).
Proof.
  induction r as [l|cl|cl g|cl g|r1 IH1 r2 IH2|r IH]; intros k s c res;
    cbn [m lang group_lang]; intros H.
  - destruct (starts_with l s) eqn:E; [|discriminate].
    exists l, (skipn (length l) s), c.
    split; [now apply starts_with_split|]. auto.
  - destruct s as [|x s]; [discriminate|].
    destruct (in_class cl x) eqn:E; [|discriminate].
    exists [x], s, c. repeat split; auto. now exists x.
  - apply rep_sound in H as (u & v & -> & Hu & Hv).
    exists u, v, c. auto.
  - destruct s as [|x s]; [discriminate|].
    destruct (in_class cl x) eqn:E; [|discriminate].
    apply rep_sound in H as (u & v & -> & Hu & Hv).
    exists (x :: u), v, c. repeat split; auto; [discriminate|].
    cbn [forallb]. now rewrite E, Hu.
  - apply IH1 in H as (u1 & v1 & c1 & -> & L1 & H & C1).
    apply IH2 in H as (u2 & v2 & c2 & -> & L2 & H & C2).
    exists (u1 ++ u2), v2, c2. rewrite <- app_assoc.
    split; [reflexivity|]. split; [now exists u1, u2|]. split; [exact H|].
    destruct C2 as [->|(g & -> & G)].
    + destruct C1 as [->|(g & -> & G)]; [now left|].
      right. exists g. auto.
    + right. exists g. auto.
  - apply IH in H as (u & v & c' & -> & L & H & _).
    rewrite firstn_consumed in H.
    exists u, v, (Some u). repeat split; auto. right. now exists u.
Qed.

Lemma exec_sound r s g :
  exec r s = Some (Some g) -> group_lang r g.
Proof.
  induction s as [|x s IH]; cbn [exec]; intros H.
  - destruct (m r (fun _ c => Some c) [] None) as [c|] eqn:E;
      [|discriminate].
    injection H as ->.
    apply m_sound in E as (u & v & c' & _ & _ & [= ->] & [C|(g' & [= ->] & G)]);
      [discriminate|exact G].
  - destruct (m r (fun _ c => Some c) (x :: s) None) as [c|] eqn:E;
      [|now apply IH].
    injection H as ->.
    apply m_sound in E as (u & v & c' & _ & _ & [= ->] & [C|(g' & [= ->] & G)]);
      [discriminate|exact G].
Qed.

(** What the price pattern captures is a run of digits, a comma and two
    digits. *)
Lemma price_capture_form line g :
  str_match line priceRegex = Some (Some g) ->
  exists ip d1 d2,
    g = ip ++ js "," ++ [d1; d2]
    /\ ip <> [] /\ forallb isDigit ip = true
    /\ isDigit d1 = true /\ isDigit d2 = true.
Proof.
  intros H. apply exec_sound in H. unfold priceRegex in H.
  cbn [group_lang lang] in H.
  destruct H as [[]|[[]|[[]|[H|[]]]]].
  destruct H as (ip & u2 & -> & [Hne Hip] & u3 & u4 & -> & ->
                   & u5 & u6 & -> & (d1 & -> & H1) & (d2 & -> & H2)).
  exists ip, d1, d2. repeat split; auto.
Qed.

(** The price the scanner stores is the binary64 value nearest to the
    amount in cents divided by one hundred. *)
Lemma stored_price st line g :
  searchPrice st = true ->
  str_match line priceRegex = Some (Some g) ->
  exists ip d1 d2,
    g = ip ++ js "," ++ [d1; d2]
    /\ price_branch st line
       = Ok {| lineItems := lineItems st;
               currentLineItem :=
                 {| description := description (currentLineItem st);
                    totalPrice :=
                      Some (round_ratio false
                              (decimal_value (ip ++ [d1; d2])) 100);
                    details := details (currentLineItem st) |};
               searchItem := searchItem st;
               searchPrice := false;
               searchDetail := true |}.
Proof.
  intros Hs H.
  destruct (price_capture_form line g H) as (ip & d1 & d2 & -> & Hne & Hip & H1 & H2).
  exists ip, d1, d2. split; [reflexivity|].
  unfold price_branch. rewrite Hs, H. cbn [deref bind].
  destruct ip as [|c ip]; [congruence|].
  assert (Hc : isDigit c = true)
    by (cbn [forallb] in Hip; now apply andb_prop in Hip).
  assert (T : (c :: ip) ++ js "," ++ [d1; d2]
              = c :: (ip ++ [44%N; d1]) ++ [d2])
    by (now rewrite <- app_assoc).
  rewrite T, (trim_digits c _ d2 Hc H2), <- T.
  unfold replace. change (js ",") with [44%N].
  change ([44%N] ++ [d1; d2]) with (44%N :: [d1; d2]).
  rewrite cut_char by (now apply digits_lack).
  now rewrite parseFloat_price.
Qed.

End CaptureSoundness.

(** * Properties of the rest of the code *)

(** ** The line filter *)

Section FilterFacts.

Lemma eqs_eq a : forall b, eqs a b = true -> a = b.
Proof.
  induction a as [|x a IH]; intros [|y b] H; cbn [eqs] in H;
    try discriminate; [reflexivity|].
  apply andb_prop in H as [Hx H]. apply N.eqb_eq in Hx.
  now rewrite Hx, (IH b H).
Qed.

Lemma trimStart_split s :
  exists ws, s = ws ++ trimStart s /\ forallb isWhiteSpace ws = true.
Proof.
  induction s as [|c s (ws & E & H)]; [now exists []|].
  cbn [trimStart]. destruct (isWhiteSpace c) eqn:W.
  - exists (c :: ws). cbn [app forallb]. now rewrite W, H, <- E.
  - now exists [].
Qed.

Lemma forallb_rev {A} (f : A -> bool) l :
  forallb f (rev l) = forallb f l.
Proof.
  induction l as [|x l IH]; [reflexivity|].
  cbn [rev forallb]. rewrite forallb_app, IH. cbn [forallb].
  now rewrite andb_true_r, andb_comm.
Qed.

(** A string is its trimmed text between two runs of white space. *)
Lemma trim_split s :
  exists ws1 ws2,
    s = ws1 ++ trim s ++ ws2
    /\ forallb isWhiteSpace ws1 = true /\ forallb isWhiteSpace ws2 = true.
Proof.
  destruct (trimStart_split s) as (ws1 & E1 & H1).
  destruct (trimStart_split (rev (trimStart s))) as (ws2 & E2 & H2).
  exists ws1, (rev ws2). unfold trim, trimEnd. repeat split; auto.
  - rewrite E1 at 1. f_equal.
    rewrite <- (rev_involutive (trimStart s)) at 1.
    rewrite E2 at 1. now rewrite rev_app_distr.
  - now rewrite forallb_rev.
Qed.

Lemma nowhere_nil l : l <> [] -> nowhere l [].
Proof.
  intros Hl a b E. symmetry in E. apply app_eq_nil in E as [_ ->].
  destruct l; [congruence|reflexivity].
Qed.

Lemma nowhere_cons l c s :
  starts_with l (c :: s) = false -> nowhere l s -> nowhere l (c :: s).
Proof.
  intros H0 H a b E. destruct a as [|x a].
  - cbn [app] in E. now subst b.
  - injection E as _ E. now apply (H a b).
Qed.

Lemma nowhere_space l x ws s :
  isWhiteSpace x = false ->
  forallb isWhiteSpace ws = true ->
  nowhere (x :: l) s -> nowhere (x :: l) (ws ++ s).
Proof.
  intros Hx Hws H. induction ws as [|c ws IH]; [exact H|].
  cbn [forallb] in Hws. apply andb_prop in Hws as [Hc Hws].
  cbn [app]. apply nowhere_cons; [|now apply IH].
  cbn [starts_with]. destruct (N.eqb_spec x c) as [->|]; [congruence|].
  reflexivity.
Qed.

Lemma nowhere_spaces l x ws :
  isWhiteSpace x = false ->
  forallb isWhiteSpace ws = true ->
  nowhere (x :: l) ws.
Proof.
  intros Hx Hws. rewrite <- (app_nil_r ws).
  apply nowhere_space; auto. apply nowhere_nil. discriminate.
Qed.

(** A pattern that begins with literal text matches nowhere in a line in
    which that text starts nowhere. *)
Lemma exec_nowhere l r s : nowhere l s -> exec (Lit l +++ r) s = None.
Proof.
  induction s as [|x s IH]; intros H; cbn [exec m].
  - now rewrite (H [] [] eq_refl).
  - rewrite (H [] (x :: s) eq_refl). apply IH.
    intros a b E. apply (H (x :: a) b). now rewrite E.
Qed.

Ltac walk :=
  repeat (apply nowhere_cons; [reflexivity|]).

Lemma removed_nowhere l x core ws1 ws2 :
  isWhiteSpace x = false ->
  In core stringsToRemove ->
  forallb isWhiteSpace ws1 = true -> forallb isWhiteSpace ws2 = true ->
  (forall ws, forallb isWhiteSpace ws = true ->
     nowhere (x :: l) (js "<tr>" ++ ws)
     /\ nowhere (x :: l) (js "</tr>" ++ ws)
     /\ nowhere (x :: l) (js "<td>&nbsp;</td>" ++ ws)
     /\ nowhere (x :: l) (js "<td></td>" ++ ws)) ->
  nowhere (x :: l) (ws1 ++ core ++ ws2).
Proof.
  intros Hx Hin H1 H2 Hc. apply nowhere_space; auto.
  destruct (Hc ws2 H2) as (A & B & C & D).
  cbn [In stringsToRemove] in Hin.
  destruct Hin as [<-|[<-|[<-|[<-|[<-|[]]]]]]; auto.
  cbn [app]. now apply nowhere_spaces.
Qed.

Ltac removed_cases :=
  let H := fresh "H" in
  let E := fresh "E" in
  intros H;
  match goal with
  | H : forallb isWhiteSpace ?w = true |- nowhere ?l _ /\ _ =>
      assert (E : nowhere l w) by (now apply nowhere_spaces)
  end;
  repeat split;
    cbn [js list_ascii_of_string map app N_of_ascii N_of_digits
         N.add N.mul Pos.add Pos.mul Pos.succ dquote];
    walk; exact E.

Lemma divider_open_nowhere ws :
  forallb isWhiteSpace ws = true ->
  nowhere (js "<hr ") (js "<tr>" ++ ws)
  /\ nowhere (js "<hr ") (js "</tr>" ++ ws)
  /\ nowhere (js "<hr ") (js "<td>&nbsp;</td>" ++ ws)
  /\ nowhere (js "<hr ") (js "<td></td>" ++ ws).
Proof. removed_cases. Qed.

Lemma cell_open_nowhere ws :
  forallb isWhiteSpace ws = true ->
  nowhere cell_open (js "<tr>" ++ ws)
  /\ nowhere cell_open (js "</tr>" ++ ws)
  /\ nowhere cell_open (js "<td>&nbsp;</td>" ++ ws)
  /\ nowhere cell_open (js "<td></td>" ++ ws).
Proof. unfold cell_open. removed_cases. Qed.

Lemma price_open_nowhere ws :
  forallb isWhiteSpace ws = true ->
  nowhere (js "<td style=" ++ dquote ++ js "text-align:right;")
    (js "<tr>" ++ ws)
  /\ nowhere (js "<td style=" ++ dquote ++ js "text-align:right;")
       (js "</tr>" ++ ws)
  /\ nowhere (js "<td style=" ++ dquote ++ js "text-align:right;")
       (js "<td>&nbsp;</td>" ++ ws)
  /\ nowhere (js "<td style=" ++ dquote ++ js "text-align:right;")
       (js "<td></td>" ++ ws).
Proof. removed_cases. Qed.

(** A line whose trimmed text is in the list matches no pattern. *)
Lemma removed_line_unmatched (line : jsstring) :
  includes stringsToRemove (trim line) = true ->
  str_match line rowDividerRegex = None
  /\ str_match line itemRegex = None
  /\ str_match line priceRegex = None
  /\ str_match line itemDetailsRegex = None.
Proof.
  intros H. unfold includes in H. apply existsb_exists in H as (core & Hin & E).
  apply eqs_eq in E.
  destruct (trim_split line) as (ws1 & ws2 & S & H1 & H2).
  rewrite E in S. unfold str_match. rewrite S.
  repeat split; apply exec_nowhere.
  - apply (removed_nowhere (js "hr ") 60%N); auto.
    apply divider_open_nowhere.
  - apply (removed_nowhere (js "td style=" ++ dquote ++ js "font-size:") 60%N);
      auto. apply cell_open_nowhere.
  - apply (removed_nowhere
             (js "td style=" ++ dquote ++ js "text-align:right;") 60%N);
      auto. apply price_open_nowhere.
  - apply (removed_nowhere (js "td style=" ++ dquote ++ js "font-size:") 60%N);
      auto. apply cell_open_nowhere.
Qed.

(** X2.  A line the filter drops (its trimmed text is empty or one of the
    four structural cells) matches none of the four patterns of the
    scanner: the filter never removes a divider, description, price or
    details line. *)
Theorem dropped_line_matches_nothing (line : jsstring) :
  includes stringsToRemove (trim line) = true ->
  str_match line rowDividerRegex = None
  /\ str_match line itemRegex = None
  /\ str_match line priceRegex = None
  /\ str_match line itemDetailsRegex = None.
Proof. apply removed_line_unmatched. Qed.

Lemma dropped_line_matches_nothing_witness :
  str_match (js "   <td>&nbsp;</td>  ") rowDividerRegex = None
  /\ str_match (js "   <td>&nbsp;</td>  ") itemRegex = None
  /\ str_match (js "   <td>&nbsp;</td>  ") priceRegex = None
  /\ str_match (js "   <td>&nbsp;</td>  ") itemDetailsRegex = None.
Proof.
  apply (dropped_line_matches_nothing (js "   <td>&nbsp;</td>  ")).
  vm_compute. reflexivity.
Defined.

Lemma loop_body_dropped st line :
  includes stringsToRemove (trim line) = true -> loop_body st line = Ok st.
Proof.
  intros H.
  destruct (removed_line_unmatched line H) as (D & I & P & T).
  unfold loop_body, item_branch, price_branch, detail_branch.
  rewrite D, I, P, T.
  destruct (searchItem st), (searchPrice st), (searchDetail st); reflexivity.
Qed.

Lemma for_of_filter lines : forall st,
  for_of st (filter_lines lines) = for_of st lines.
Proof.
  induction lines as [|line lines IH]; intros st; [reflexivity|].
  unfold filter_lines. cbn [filter].
  destruct (includes stringsToRemove (trim line)) eqn:E; cbn [negb].
  - fold (filter_lines lines). cbn [for_of].
    rewrite (loop_body_dropped st line E). cbn [bind]. apply IH.
  - fold (filter_lines lines). cbn [for_of].
    destruct (loop_body st line); cbn [bind]; [apply IH|reflexivity].
Qed.

(** X1.  The line filter does not change what the scanner returns: the
    extraction from a raw block is the scan of all its lines, and scanning
    the filtered lines of any array gives the result of scanning the
    array. *)
Theorem filter_is_transparent (lineItemsRaw : jsstring) :
  Script.extractLineItems (Some lineItemsRaw)
  = scan_lines (split LF lineItemsRaw)
  /\ forall lines, scan_lines (filter_lines lines) = scan_lines lines.
Proof.
  assert (G : forall lines, scan_lines (filter_lines lines) = scan_lines lines).
  { intros lines. unfold scan_lines. now rewrite for_of_filter. }
  split; [|exact G].
  unfold Script.extractLineItems, Script.extractLineItemsArray.
  cbn [deref bind]. apply G.
Qed.

End FilterFacts.

(** ** The states of the scanner and the items it emits *)

Section ScannerFacts.

(** X3.  In every state the loop reaches at most one of the three search
    flags is set, and the flags tell which fields are filled: none while a
    description is awaited, the description while a price is awaited,
    description and price while details are awaited, and nothing or all
    three when no flag is set. *)
Theorem reachable_scanner_states (lines : list jsstring) (st : locals) :
  for_of initial lines = Ok st -> scanner_state st.
Proof.
  apply for_of_scanner_state. cbn. now left.
Qed.

Lemma reachable_scanner_states_witness :
  scanner_state
    {| lineItems := [];
       currentLineItem :=
         {| description := Some (js "Milch 3.5%");
            totalPrice := Some (S754_finite false 5809643519307940 (-52));
            details := None |};
       searchItem := false; searchPrice := false; searchDetail := true |}.
Proof.
  apply (reachable_scanner_states
           [divider_row; td "font-size:12px;" "Milch 3.5%";
            td "text-align:right;" "1,29&nbsp;"]).
  vm_compute. reflexivity.
Defined.

Lemma flush_trace_shape lines : forall st,
  scanner_state st ->
  Forall (fun it => it = nullItem
                    \/ (description it <> None
                        /\ (details it <> None -> totalPrice it <> None)))
         (flush_trace st lines).
Proof.
  assert (C : forall st, scanner_state st ->
            currentLineItem st = nullItem
            \/ (description (currentLineItem st) <> None
                /\ (details (currentLineItem st) <> None ->
                    totalPrice (currentLineItem st) <> None))).
  { intros st. unfold scanner_state.
    destruct (searchItem st), (searchPrice st), (searchDetail st);
      intuition congruence. }
  induction lines as [|line lines IH]; intros st I; cbn [flush_trace].
  - constructor; [now apply C|constructor].
  - destruct (loop_body st line) as [st1|] eqn:E; [|constructor].
    apply Forall_app. split.
    + destruct (is_divider line); constructor; [now apply C|constructor].
    + apply IH. now apply (loop_body_scanner_state st line).
Qed.

(** X4.  Every item the scanner emits has a description, and it has
    details only if it has a price: the fields are filled in the order
    description, price, details. *)
Theorem emitted_items_have_description (lines : list jsstring) :
  exists items,
    scan_lines lines = Ok items
    /\ Forall (fun it =>
                 description it <> None
                 /\ (details it <> None -> totalPrice it <> None))
              items.
Proof.
  exists (filter hasData (flush_trace initial lines)).
  split; [apply scan_lines_output|].
  apply Forall_forall. intros it Hin.
  apply filter_In in Hin as [Hin Hd].
  pose proof (flush_trace_shape lines initial) as F.
  rewrite Forall_forall in F.
  destruct (F ltac:(cbn; now left) it Hin) as [->|S]; [discriminate|exact S].
Qed.

Lemma round_ratio_nonnegative p q : nonnegative (round_ratio false p q).
Proof.
  unfold round_ratio.
  repeat match goal with
  | |- nonnegative (if ?b then _ else _) => destruct b
  | |- nonnegative (let _ := _ in _) => cbv zeta
  end; reflexivity.
Qed.

Lemma price_of_text_nonnegative x : price_of_text x -> nonnegative x.
Proof.
  intros (ip & d1 & d2 & Hne & Hip & H1 & H2 & ->).
  destruct ip as [|c ip]; [congruence|].
  rewrite parseFloat_price by assumption. apply round_ratio_nonnegative.
Qed.

Lemma price_text_of_capture line g :
  str_match line priceRegex = Some (Some g) ->
  price_of_text (parseFloat (replace (js ",") (js ".") (trim g))).
Proof.
  intros H.
  destruct (price_capture_form line g H)
    as (ip & d1 & d2 & -> & Hne & Hip & H1 & H2).
  exists ip, d1, d2. repeat split; auto. f_equal.
  destruct ip as [|c ip]; [congruence|].
  assert (Hc : isDigit c = true)
    by (cbn [forallb] in Hip; now apply andb_prop in Hip).
  assert (T : (c :: ip) ++ js "," ++ [d1; d2]
              = c :: (ip ++ [44%N; d1]) ++ [d2])
    by (now rewrite <- app_assoc).
  rewrite T, (trim_digits c _ d2 Hc H2), <- T.
  unfold replace. change (js ",") with [44%N].
  change ([44%N] ++ [d1; d2]) with (44%N :: [d1; d2]).
  now rewrite cut_char by (now apply digits_lack).
Qed.

Lemma loop_body_priced st line st' :
  priced (currentLineItem st) -> loop_body st line = Ok st' ->
  priced (currentLineItem st').
Proof.
  unfold loop_body, item_branch, price_branch, detail_branch.
  intros I H.
  destruct (str_match line rowDividerRegex).
  { injection H as <-. intros x. discriminate. }
  destruct (searchItem st).
  { destruct (str_match line itemRegex) as [[g|]|]; cbn [deref bind] in H;
      try discriminate.
    - injection H as <-. exact I.
    - destruct (searchPrice st).
      + destruct (str_match line priceRegex) as [[g|]|] eqn:P;
          cbn [deref bind] in H; try discriminate.
        * injection H as <-. intros x [= <-].
          now apply (price_text_of_capture line).
        * destruct (searchDetail st); [|now injection H as <-].
          destruct (str_match line itemDetailsRegex) as [[g|]|];
            cbn [deref bind] in H; try discriminate;
            injection H as <-; exact I.
      + destruct (searchDetail st); [|now injection H as <-].
        destruct (str_match line itemDetailsRegex) as [[g|]|];
          cbn [deref bind] in H; try discriminate;
          injection H as <-; exact I. }
  destruct (searchPrice st).
  - destruct (str_match line priceRegex) as [[g|]|] eqn:P;
      cbn [deref bind] in H; try discriminate.
    + injection H as <-. intros x [= <-].
      now apply (price_text_of_capture line).
    + destruct (searchDetail st); [|now injection H as <-].
      destruct (str_match line itemDetailsRegex) as [[g|]|];
        cbn [deref bind] in H; try discriminate;
        injection H as <-; exact I.
  - destruct (searchDetail st); [|now injection H as <-].
    destruct (str_match line itemDetailsRegex) as [[g|]|];
      cbn [deref bind] in H; try discriminate;
      injection H as <-; exact I.
Qed.

Lemma flush_trace_priced lines : forall st,
  priced (currentLineItem st) -> Forall priced (flush_trace st lines).
Proof.
  induction lines as [|line lines IH]; intros st I; cbn [flush_trace].
  - constructor; [exact I|constructor].
  - destruct (loop_body st line) as [st1|] eqn:E; [|constructor].
    apply Forall_app. split.
    + destruct (is_divider line); constructor; [exact I|constructor].
    + apply IH. now apply (loop_body_priced st line).
Qed.

(** X5.  Every price the scanner emits is the value [parseFloat] gives to
    a text of digits, a point and two digits; it is never NaN and never
    negative. *)
Theorem emitted_prices_are_amounts (lines : list jsstring) :
  exists items,
    scan_lines lines = Ok items
    /\ Forall (fun it =>
                 forall x, totalPrice it = Some x ->
                   (exists ip d1 d2,
                      ip <> [] /\ forallb isDigit ip = true
                      /\ isDigit d1 = true /\ isDigit d2 = true
                      /\ x = parseFloat (ip ++ js "." ++ [d1; d2]))
                   /\ nonnegative x)
              items.
Proof.
  exists (filter hasData (flush_trace initial lines)).
  split; [apply scan_lines_output|].
  apply Forall_forall. intros it Hin x Hx.
  apply filter_In in Hin as [Hin _].
  pose proof (flush_trace_priced lines initial) as F.
  rewrite Forall_forall in F.
  assert (P : price_of_text x).
  { apply (F ltac:(intros y; discriminate) it Hin x Hx). }
  split; [exact P|now apply price_of_text_nonnegative].
Qed.

Lemma loop_body_control st st' line :
  control st = control st' ->
  match loop_body st line, loop_body st' line with
  | Ok s, Ok s' => control s = control s'
  | Throw _, Throw _ => True
  | _, _ => False
  end.
Proof.
  destruct st as [items c si sp sd], st' as [items' c' si' sp' sd'].
  unfold control. cbn [currentLineItem searchItem searchPrice searchDetail].
  intros [= <- <- <- <-].
  unfold loop_body, item_branch, price_branch, detail_branch, on_divider.
  cbn [currentLineItem searchItem searchPrice searchDetail lineItems].
  destruct (str_match line rowDividerRegex); [reflexivity|].
  destruct si, sp, sd;
    repeat match goal with
    | |- context [str_match line ?r] =>
        destruct (str_match line r) as [[?|]|]; cbn [deref bind]
    end; auto.
Qed.

Lemma flush_trace_control lines : forall st st',
  control st = control st' -> flush_trace st lines = flush_trace st' lines.
Proof.
  induction lines as [|line lines IH]; intros st st' E; cbn [flush_trace].
  - unfold control in E. now injection E as -> _ _ _.
  - pose proof (loop_body_control st st' line E) as H.
    destruct (loop_body st line) as [s|], (loop_body st' line) as [s'|];
      try contradiction; [|reflexivity].
    rewrite (IH s s' H). unfold control in E. now injection E as -> _ _ _.
Qed.

(** X6.  A receipt can be scanned piece by piece: cut in front of a
    divider line, the items of the whole are the items of the part before
    followed by the items of the part from the divider on. *)
Theorem scan_splits_at_divider (pre rest : list jsstring) (d : jsstring) :
  is_divider d = true ->
  exists a b,
    scan_lines pre = Ok a
    /\ scan_lines (d :: rest) = Ok b
    /\ scan_lines (pre ++ d :: rest) = Ok (a ++ b).
Proof.
  intros Hd.
  exists (filter hasData (flush_trace initial pre)),
         (filter hasData (flush_trace initial (d :: rest))).
  split; [apply scan_lines_output|]. split; [apply scan_lines_output|].
  unfold scan_lines.
  destruct (for_of_ok pre initial) as [st H].
  rewrite for_of_app, H. cbn [bind for_of].
  destruct (loop_body_ok st d) as (s1 & E1 & Hs1 & _).
  rewrite E1. cbn [bind]. rewrite (Hs1 Hd).
  destruct (for_of_ok rest (on_divider st)) as [st2 H2]. rewrite H2.
  cbn [bind]. f_equal.
  rewrite (for_of_output _ _ _ H2).
  assert (A : lineItems (on_divider st)
              = filter hasData (flush_trace initial pre))
    by (exact (for_of_output _ _ _ H)).
  assert (B : filter hasData (flush_trace initial (d :: rest))
              = filter hasData (flush_trace (on_divider st) rest)).
  { cbn [flush_trace].
    destruct (loop_body_ok initial d) as (s0 & E0 & Hs0 & _).
    rewrite E0, Hd, (Hs0 Hd).
    change (filter hasData ([currentLineItem initial]
                              ++ flush_trace (on_divider initial) rest))
      with (filter hasData (flush_trace (on_divider initial) rest)).
    f_equal. now apply flush_trace_control. }
  now rewrite A, B.
Qed.

Lemma scan_splits_at_divider_witness :
  exists a b,
    scan_lines (divider_row :: milk_rows) = Ok a
    /\ scan_lines (divider_row :: bread_rows) = Ok b
    /\ scan_lines ((divider_row :: milk_rows) ++ divider_row :: bread_rows)
       = Ok (a ++ b).
Proof.
  apply (scan_splits_at_divider (divider_row :: milk_rows) bread_rows
           divider_row).
  vm_compute. reflexivity.
Defined.

(** X7.  With [N] divider lines the scanner emits at most [N] items, and
    none when there is no divider line: what stands at the first flush is
    always the empty item. *)
Theorem scan_emits_at_most_dividers (lines : list jsstring) :
  exists items,
    scan_lines lines = Ok items
    /\ length items <= count_dividers lines
    /\ (count_dividers lines = 0 -> items = []).
Proof.
  exists (filter hasData (flush_trace initial lines)).
  split; [apply scan_lines_output|].
  pose proof (at_most_one_item_per_divider lines) as H.
  split; [exact H|].
  intros Z. rewrite Z in H.
  destruct (filter hasData (flush_trace initial lines)); [reflexivity|].
  cbn [length] in H. lia.
Qed.

End ScannerFacts.

(** ** The top-level functions *)

Section TopLevelFacts.

Lemma cut_char_none c s : lacks c s = true -> cut [c] s = None.
Proof.
  induction s as [|x s IH]; intros H; [reflexivity|].
  cbn [lacks forallb] in H. apply andb_prop in H as [Hx Hs].
  apply negb_true_iff in Hx. rewrite N.eqb_sym in Hx.
  cbn [cut starts_with]. rewrite Hx. cbn [andb]. now rewrite (IH Hs).
Qed.

(** X8.  The address is made of the second and third line of the raw
    text alone: the first line and whatever follows the third are
    ignored, and each of the two lines loses its first [<br>] and the
    white space around it. *)
Theorem address_uses_lines_two_and_three (l0 l1 l2 tail : jsstring) :
  lacks 10%N l0 = true -> lacks 10%N l1 = true -> lacks 10%N l2 = true ->
  tail = [] \/ (exists rest, tail = LF ++ rest) ->
  Script.extractStoreAddress (Some (l0 ++ LF ++ l1 ++ LF ++ l2 ++ tail))
  = Ok (trim (replace (js "<br>") [] l1) ++ js ", "
        ++ trim (replace (js "<br>") [] l2)).
Proof.
  intros H0 H1 H2 Ht. unfold Script.extractStoreAddress. cbn [deref bind].
  assert (N : LF <> []) by discriminate.
  change (LF ++ l1 ++ LF ++ l2 ++ tail) with (10%N :: l1 ++ LF ++ l2 ++ tail).
  rewrite split_unfold by exact N. unfold LF at 1. rewrite cut_char by exact H0.
  change (LF ++ l2 ++ tail) with (10%N :: l2 ++ tail).
  rewrite split_unfold by exact N. unfold LF at 1. rewrite cut_char by exact H1.
  rewrite split_unfold by exact N.
  destruct Ht as [->|(rest & ->)].
  - rewrite app_nil_r. unfold LF at 1. rewrite cut_char_none by exact H2.
    reflexivity.
  - change (LF ++ rest) with (10%N :: rest). unfold LF at 1.
    rewrite cut_char by exact H2. reflexivity.
Qed.

Lemma address_uses_lines_two_and_three_witness :
  Script.extractStoreAddress
    (Some (js "  " ++ LF ++ js "<br>Netto" ++ LF ++ js "<br>Hauptstr. 1 "
             ++ (LF ++ js "<br>more")))
  = Ok (trim (replace (js "<br>") [] (js "<br>Netto")) ++ js ", "
        ++ trim (replace (js "<br>") [] (js "<br>Hauptstr. 1 "))).
Proof.
  apply (address_uses_lines_two_and_three (js "  ") (js "<br>Netto")
           (js "<br>Hauptstr. 1 ") (LF ++ js "<br>more")).
  - reflexivity.
  - reflexivity.
  - reflexivity.
  - right. exists (js "<br>more"). reflexivity.
Defined.

(** X9.  The single function does what the functions of the script do
    when the segmenter is given the cart marker as the middle marker and
    the payments marker as the end marker, and the line-items block is
    cut at the totals marker before it is scanned. *)
Theorem single_as_script_pipeline (emailBody : jsstring) :
  Single.extractNettoReceiptData emailBody
  = (segs <- Script.extractStoreAndPurchaseString emailBody
               FILIALE WARENKORB ZAHLUNGEN ;;
     afterMiddle <- deref (Script.lineItemsRaw segs) ;;
     storeAddress <- Script.extractStoreAddress (Script.storeAddressRaw segs) ;;
     lineItems <- Script.extractLineItems (Some (upto SUMME afterMiddle)) ;;
     Ok {| Receipt.storeAddress := Some storeAddress;
           Receipt.lineItems := lineItems |}).
Proof.
  unfold Single.extractNettoReceiptData,
    Script.extractStoreAndPurchaseString, FILIALE, WARENKORB, ZAHLUNGEN,
    SUMME.
  destruct (nth_error (split (js "Filiale:") emailBody) 1) as [afterStart|];
    cbn [deref bind]; [|reflexivity].
  rewrite split_0 by discriminate. cbn [deref bind].
  cbn [Script.storeAddressRaw Script.lineItemsRaw].
  rewrite split_0 by discriminate.
  destruct (nth_error (split (js "<!-- WARENKORB -->") _) 1) as [afterMiddle|];
    cbn [deref bind]; [|reflexivity].
  rewrite split_0 by discriminate. cbn [deref bind].
  unfold Script.extractStoreAddress, Script.extractLineItems,
    Script.extractLineItemsArray. cbn [deref bind]. reflexivity.
Qed.

Lemma scan_lines_ok lines : exists items, scan_lines lines = Ok items.
Proof. eexists. apply scan_lines_output. Qed.

(** The single function returns normally exactly when the start marker
    occurs and the cart marker occurs in the span. *)
Lemma single_ok_iff (emailBody : jsstring) :
  (exists r, Single.extractNettoReceiptData emailBody = Ok r)
  <->
  (exists before after,
     cut FILIALE emailBody = Some (before, after)
     /\ occurs WARENKORB (upto ZAHLUNGEN (upto FILIALE after))).
Proof.
  unfold FILIALE, WARENKORB, ZAHLUNGEN.
  unfold Single.extractNettoReceiptData.
  rewrite split_1 by discriminate.
  destruct (cut (js "Filiale:") emailBody) as [[before after]|] eqn:C.
  2:{ cbn [deref bind]. split; [intros [r H]; discriminate|].
      intros (b & a & H & _). discriminate. }
  cbn [deref bind]. rewrite split_0 by discriminate. cbn [deref bind].
  rewrite split_0, split_1 by discriminate.
  set (span := upto (js "<!-- ZAHLUNGEN -->") (upto (js "Filiale:") after)).
  destruct (cut (js "<!-- WARENKORB -->") span) as [[a b]|] eqn:C'.
  - cbn [deref bind]. rewrite split_0 by discriminate. cbn [deref bind].
    split.
    + intros _. exists before, after. split; [reflexivity|].
      apply cut_occurs. fold span. rewrite C'. discriminate.
    + intros _.
      destruct (scan_lines_ok
                  (filter_lines
                     (split LF (upto (js "<!-- SUMME -->")
                                  (upto (js "<!-- WARENKORB -->") b)))))
        as [items ->].
      cbn [bind]. eexists. reflexivity.
  - cbn [deref bind]. split; [intros [r H]; discriminate|].
    intros (b' & a' & [= <- <-] & H). apply cut_occurs in H.
    fold span in H. congruence.
Qed.

(** X11.  The top-level function of the script returns normally exactly
    when the start marker occurs and the payments marker occurs in the
    text between it and the totals marker; when the payments marker
    does not occur there it throws. *)
Theorem script_succeeds_iff (emailBody : jsstring) :
  (exists r, Script.extractNettoReceiptData emailBody = Ok r)
  <->
  (exists before after,
     cut FILIALE emailBody = Some (before, after)
     /\ occurs ZAHLUNGEN (upto SUMME (upto FILIALE after))).
Proof.
  unfold FILIALE, SUMME, ZAHLUNGEN.
  unfold Script.extractNettoReceiptData, Script.extractStoreAndPurchaseString.
  rewrite split_1 by discriminate.
  destruct (cut (js "Filiale:") emailBody) as [[before after]|] eqn:C.
  2:{ cbn [deref bind]. split; [intros [r H]; discriminate|].
      intros (b & a & H & _). discriminate. }
  cbn [deref bind]. rewrite split_0 by discriminate. cbn [deref bind].
  cbn [Script.storeAddressRaw Script.lineItemsRaw].
  rewrite split_0, split_1 by discriminate.
  set (span := upto (js "<!-- SUMME -->") (upto (js "Filiale:") after)).
  unfold Script.extractStoreAddress. cbn [deref bind].
  unfold Script.extractLineItems, Script.extractLineItemsArray.
  destruct (cut (js "<!-- ZAHLUNGEN -->") span) as [[a b]|] eqn:C'.
  - cbn [deref bind]. split.
    + intros _. exists before, after. split; [reflexivity|].
      apply cut_occurs. fold span. rewrite C'. discriminate.
    + intros _.
      destruct (scan_lines_ok
                  (filter_lines
                     (split LF (upto (js "<!-- ZAHLUNGEN -->") b))))
        as [items ->].
      cbn [bind]. eexists. reflexivity.
  - cbn [deref bind]. split; [intros [r H]; discriminate|].
    intros (b' & a' & [= <- <-] & H). apply cut_occurs in H.
    fold span in H. congruence.
Qed.

(** The line items of the single function are what the scanner emits on
    some lines. *)
Lemma single_items (emailBody : jsstring) (r : Receipt.t) :
  Single.extractNettoReceiptData emailBody = Ok r ->
  exists lines,
    Receipt.lineItems r = filter hasData (flush_trace initial lines).
Proof.
  unfold Single.extractNettoReceiptData.
  destruct (nth_error (split (js "Filiale:") emailBody) 1) as [afterStart|];
    cbn [deref bind]; [|discriminate].
  destruct (nth_error (split (js "<!-- ZAHLUNGEN -->") afterStart) 0)
    as [span|]; cbn [deref bind]; [|discriminate].
  destruct (nth_error (split (js "<!-- WARENKORB -->") span) 1)
    as [afterMiddle|]; cbn [deref bind]; [|discriminate].
  destruct (nth_error (split (js "<!-- SUMME -->") afterMiddle) 0)
    as [lineItemsRaw|]; cbn [deref bind]; [|discriminate].
  destruct (nth_error (split (js "<!-- WARENKORB -->") span) 0)
    as [addressRaw|]; cbn [deref bind]; [|discriminate].
  rewrite scan_lines_output. cbn [bind]. intros [= <-].
  eexists. reflexivity.
Qed.

End TopLevelFacts.

(** ** The glue code *)

Section CodeFacts.

Variable dateString : value -> jsstring.

Lemma eqs_refl a : eqs a a = true.
Proof. induction a; cbn [eqs]; [reflexivity|]. now rewrite N.eqb_refl. Qed.

Lemma indexOf_first (l1 l2 : list value) (y x : value) :
  (forall z, In z l1 -> strict_eq z x = false) ->
  strict_eq y x = true ->
  indexOf (l1 ++ y :: l2) x = Some (length l1).
Proof.
  intros H1 Hy. induction l1 as [|z l1 IH]; cbn [app indexOf length].
  - now rewrite Hy.
  - rewrite (H1 z (or_introl eq_refl)), IH; [reflexivity|].
    intros w Hw. apply H1. now right.
Qed.

Lemma indexOf_none (l : list value) (x : value) :
  (forall z, In z l -> strict_eq z x = false) -> indexOf l x = None.
Proof.
  induction l as [|z l IH]; intros H; cbn [indexOf]; [reflexivity|].
  rewrite (H z (or_introl eq_refl)), IH; [reflexivity|].
  intros w Hw. apply H. now right.
Qed.

(** X12.  A store is looked up by its address alone: when a row after the
    header has the address of the receipt in its third cell and no row
    before it has, the id is the first cell of that row, whatever the
    names are, and nothing is appended. *)
Theorem known_store_found_by_address
    (header : list value) (rows1 rows2 : list (list value))
    (row : list value) (storeName addr : jsstring) (data : Receipt.t) :
  Receipt.storeAddress data = Some addr ->
  cell row 2 = VString addr ->
  (forall r, In r rows1 -> strict_eq (cell r 2) (VString addr) = false) ->
  getStoreId (header :: rows1 ++ row :: rows2) storeName data
  = ([], Returned (cell row 0)).
Proof.
  intros Ha Hrow Hnone. unfold getStoreId. rewrite Ha. cbn [of_string].
  cbn [map skipn]. rewrite map_app. cbn [map].
  rewrite (indexOf_first _ _ (cell row 2) (VString addr)).
  - rewrite length_map, Nat.add_1_r. cbn [nth_error].
    rewrite nth_error_app2, Nat.sub_diag by lia. reflexivity.
  - intros z Hz. apply in_map_iff in Hz as (r & <- & Hr). now apply Hnone.
  - rewrite Hrow. cbn [strict_eq]. apply eqs_refl.
Qed.

Lemma known_store_found_by_address_witness :
  getStoreId
    ([VString (js "id"); VString (js "name"); VString (js "address")]
       :: [[VNumber (S754_zero false); VString (js "Aldi");
            VString (js "Weg 1")]]
       ++ [VNumber (S754_finite false 4503599627370496 (-52));
           VString (js "Netto"); VString (js "Hauptstr. 2")]
       :: [])
    (js "Another name")
    {| Receipt.storeAddress := Some (js "Hauptstr. 2");
       Receipt.lineItems := [] |}
  = ([], Returned
           (cell [VNumber (S754_finite false 4503599627370496 (-52));
                  VString (js "Netto"); VString (js "Hauptstr. 2")] 0)).
Proof.
  apply (known_store_found_by_address
           [VString (js "id"); VString (js "name"); VString (js "address")]
           [[VNumber (S754_zero false); VString (js "Aldi");
             VString (js "Weg 1")]]
           []
           [VNumber (S754_finite false 4503599627370496 (-52));
            VString (js "Netto"); VString (js "Hauptstr. 2")]
           (js "Another name") (js "Hauptstr. 2")).
  - reflexivity.
  - reflexivity.
  - intros r [<-|[]]. reflexivity.
Defined.

(** X13.  When no row after the header has the address of the receipt, a
    row with an empty id, the name and the address is appended to the
    stores sheet, and the id handed back is the first cell of the last
    row read before the append, the id of another store or the header
    cell of a sheet with no store yet. *)
Theorem new_store_gets_id_of_last_row
    (storesData : list (list value)) (storeName : jsstring)
    (data : Receipt.t) :
  (forall r, In r (skipn 1 storesData) ->
     strict_eq (cell r 2) (of_string (Receipt.storeAddress data)) = false) ->
  getStoreId storesData storeName data
  = ([AppendRow (js "stores")
        [VNull; VString storeName; of_string (Receipt.storeAddress data)]],
     match storesData with
     | [] => Raised Type_error
     | _ :: _ => Returned (cell (last storesData []) 0)
     end).
Proof.
  intros Hnone. unfold getStoreId.
  rewrite indexOf_none.
  2:{ intros z Hz. rewrite skipn_map in Hz.
      apply in_map_iff in Hz as (r & <- & Hr). now apply Hnone. }
  unfold getLastRowData.
  destruct storesData as [|r0 rest]; [reflexivity|].
  assert (E : nth_error (r0 :: rest) (length (r0 :: rest) - 1)
              = Some (last (r0 :: rest) [])).
  { clear Hnone. revert r0. induction rest as [|r1 rest IH]; intros r0;
      [reflexivity|].
    specialize (IH r1). cbn [length Nat.sub] in *.
    rewrite Nat.sub_0_r in *. cbn [nth_error last] in *.
    destruct rest; [reflexivity|exact IH]. }
  now rewrite E.
Qed.

Lemma new_store_gets_id_of_last_row_witness :
  getStoreId
    [[VString (js "id"); VString (js "name"); VString (js "address")];
     [VNumber (S754_finite false 4503599627370496 (-52));
      VString (js "Netto"); VString (js "Hauptstr. 2")]]
    (js "Netto")
    {| Receipt.storeAddress := Some (js "Weg 1");
       Receipt.lineItems := [] |}
  = ([AppendRow (js "stores")
        [VNull; VString (js "Netto"); VString (js "Weg 1")]],
     Returned (VNumber (S754_finite false 4503599627370496 (-52)))).
Proof.
  apply (new_store_gets_id_of_last_row
           [[VString (js "id"); VString (js "name"); VString (js "address")];
            [VNumber (S754_finite false 4503599627370496 (-52));
             VString (js "Netto"); VString (js "Hauptstr. 2")]]
           (js "Netto")
           {| Receipt.storeAddress := Some (js "Weg 1");
              Receipt.lineItems := [] |}).
  intros r [<-|[]]. reflexivity.
Defined.

Lemma findMatch_first (rows1 rows2 : list (list value)) (row : list value)
    (storeId : value) (d : jsstring) :
  (forall r, In r rows1 ->
     strict_eq (cell r storeIdColumnIndex) storeId
     && eqs (dateString (cell r dateColumnIndex)) d = false) ->
  strict_eq (cell row storeIdColumnIndex) storeId
  && eqs (dateString (cell row dateColumnIndex)) d = true ->
  findMatch dateString (rows1 ++ row :: rows2) storeId d
  = cell row purchaseIdColumnIndex.
Proof.
  intros H1 Hrow. induction rows1 as [|r rows1 IH]; cbn [app findMatch].
  - now rewrite Hrow.
  - rewrite (H1 r (or_introl eq_refl)). cbn [andb]. apply IH.
    intros w Hw. apply H1. now right.
Qed.

Lemma findMatch_none (rows : list (list value)) (storeId : value)
    (d : jsstring) :
  (forall r, In r rows ->
     strict_eq (cell r storeIdColumnIndex) storeId
     && eqs (dateString (cell r dateColumnIndex)) d = false) ->
  findMatch dateString rows storeId d = VNull.
Proof.
  induction rows as [|r rows IH]; intros H; cbn [findMatch]; [reflexivity|].
  rewrite (H r (or_introl eq_refl)). cbn [andb]. apply IH.
  intros w Hw. apply H. now right.
Qed.

(** X14.  The purchase found is the first row after the header whose
    store cell is strictly equal to the store id and whose date reads as
    the date of the purchase; the value returned is the id cell of that
    row, whatever it is. *)
Theorem first_matching_purchase
    (header : list value) (rows1 rows2 : list (list value))
    (row : list value) (storeId totalPrice : value)
    (purchaseDate : jsstring) :
  (forall r, In r rows1 ->
     strict_eq (cell r storeIdColumnIndex) storeId
     && eqs (dateString (cell r dateColumnIndex)) purchaseDate = false) ->
  strict_eq (cell row storeIdColumnIndex) storeId
  && eqs (dateString (cell row dateColumnIndex)) purchaseDate = true ->
  findMatchingPurchaseId dateString (header :: rows1 ++ row :: rows2)
    storeId purchaseDate totalPrice
  = cell row purchaseIdColumnIndex.
Proof.
  intros H1 Hrow.
  unfold findMatchingPurchaseId. cbn [skipn]. now apply findMatch_first.
Qed.

(** X15.  The price takes no part in the search for a purchase: two
    sheets whose rows agree on the id, date and store cells give the same
    answer, whatever the other cells and the price asked for are. *)
Theorem purchase_match_ignores_price
    (purchasesData purchasesData' : list (list value))
    (storeId totalPrice totalPrice' : value) (purchaseDate : jsstring) :
  Forall2 (fun r r' =>
             cell r purchaseIdColumnIndex = cell r' purchaseIdColumnIndex
             /\ cell r dateColumnIndex = cell r' dateColumnIndex
             /\ cell r storeIdColumnIndex = cell r' storeIdColumnIndex)
          (skipn 1 purchasesData) (skipn 1 purchasesData') ->
  findMatchingPurchaseId dateString purchasesData storeId purchaseDate
    totalPrice
  = findMatchingPurchaseId dateString purchasesData' storeId purchaseDate
      totalPrice'.
Proof.
  unfold findMatchingPurchaseId. intros H.
  induction H as [|r r' rows rows' (E0 & E2 & E4) H IH]; [reflexivity|].
  cbn [findMatch]. now rewrite E0, E2, E4, IH.
Qed.

Lemma getStoreId_effects storesData storeName data :
  fst (getStoreId storesData storeName data) = []
  \/ fst (getStoreId storesData storeName data)
     = [AppendRow (js "stores")
          [VNull; VString storeName; of_string (Receipt.storeAddress data)]].
Proof.
  unfold getStoreId.
  destruct (indexOf _ _) as [i|].
  - left. now destruct (nth_error storesData (i + 1)).
  - right. now destruct (getLastRowData storesData).
Qed.

Lemma loadLineItems_no_read purchaseId data :
  ~ In MarkRead (loadLineItems purchaseId data).
Proof.
  unfold loadLineItems. intros H. apply in_map_iff in H as (it & E & _).
  discriminate.
Qed.

Lemma getStoreId_no_read storesData storeName data :
  ~ In MarkRead (fst (getStoreId storesData storeName data)).
Proof.
  destruct (getStoreId_effects storesData storeName data) as [->| ->];
    cbn [In]; intuition discriminate.
Qed.

(** X16.  A message is marked as read exactly when the extraction
    returns a receipt, the store lookup returns an id, and a purchase row
    with a truthy id matches that store and the date of the message. *)
Theorem message_marked_read_iff
    (storesData purchasesData : list (list value)) (body : jsstring)
    (date : value) :
  In MarkRead (processMessage dateString storesData purchasesData body date)
  <->
  exists data storeId,
    extractReceiptData body = Some data
    /\ snd (getStoreId storesData (js "Netto Marken-Discount") data)
       = Returned storeId
    /\ truthy (findMatchingPurchaseId dateString purchasesData storeId
                 (dateString date) (VNumber (S754_zero false))) = true.
Proof.
  unfold processMessage, loadReceiptDataToSheet, getPurchaseId.
  destruct (extractReceiptData body) as [data|]; cbn [In].
  2:{ split; [contradiction|]. intros (d & s & H & _). discriminate. }
  pose proof (getStoreId_no_read storesData (js "Netto Marken-Discount") data)
    as NR.
  destruct (getStoreId storesData (js "Netto Marken-Discount") data)
    as [e1 [storeId|err]] eqn:G; cbn [fst snd] in NR.
  2:{ split; [intros H; contradiction|].
      intros (d & s & [= <-] & H & _). rewrite G in H. discriminate. }
  destruct (truthy (findMatchingPurchaseId dateString purchasesData storeId
                      (dateString date) (VNumber (S754_zero false)))) eqn:T.
  - split.
    + intros _. exists data, storeId. rewrite G. auto.
    + intros _. apply in_or_app. right. now left.
  - rewrite app_nil_r. split; [intros H; contradiction|].
    intros (d & s & [= <-] & H & T'). rewrite G in H. cbn [snd] in H.
    injection H as <-. congruence.
Qed.



(** The effects of a message are those of the store lookup, rows of the
    price log and the mark. *)
Lemma processMessage_effects
    (storesData purchasesData : list (list value)) (body : jsstring)
    (date : value) (e : effect) :
  In e (processMessage dateString storesData purchasesData body date) ->
  (exists address,
     e = AppendRow (js "stores")
           [VNull; VString (js "Netto Marken-Discount"); address])
  \/ (exists row, e = AppendRow (js "priceLog") row)
  \/ e = MarkRead.
Proof.
  unfold processMessage, loadReceiptDataToSheet, getPurchaseId.
  destruct (extractReceiptData body) as [data|]; [|intros []].
  pose proof (getStoreId_effects storesData (js "Netto Marken-Discount") data)
    as E.
  assert (S1 : In e (fst (getStoreId storesData (js "Netto Marken-Discount")
                            data)) ->
               exists address,
                 e = AppendRow (js "stores")
                       [VNull; VString (js "Netto Marken-Discount"); address]).
  { destruct E as [->| ->]; cbn [In]; [intros []|].
    intros [<-|[]]. eexists; reflexivity. }
  destruct (getStoreId storesData (js "Netto Marken-Discount") data)
    as [e1 [storeId|err]]; cbn [fst] in S1.
  2:{ intros H. left. now apply S1. }
  destruct (truthy _).
  - cbn [app]. intros H. apply in_app_or in H as [H|H].
    + apply in_app_or in H as [H|H]; [left; now apply S1|].
      right. left. unfold loadLineItems in H.
      apply in_map_iff in H as (it & <- & _). eexists; reflexivity.
    + right. right. destruct H as [<-|[]]. reflexivity.
  - rewrite app_nil_r. intros H. left. now apply S1.
Qed.

(** X21.  Every row appended to the price log has eight cells: a
    description that is a string, details that are a string or empty,
    three empty cells, the currency, a price that is empty or a number
    that is neither NaN nor negative, and a truthy purchase id. *)
Theorem price_log_rows_described
    (storesData purchasesData : list (list value)) (body : jsstring)
    (date : value) (row : list value) :
  In (AppendRow (js "priceLog") row)
     (processMessage dateString storesData purchasesData body date) ->
  exists d dt p id,
    row = [VString d; dt; VNull; VNull; VNull; VString (js "EUR"); p; id]
    /\ (dt = VNull \/ exists s, dt = VString s)
    /\ (p = VNull \/ exists x, p = VNumber x /\ nonnegative x)
    /\ truthy id = true.
Proof.
  unfold processMessage, loadReceiptDataToSheet, getPurchaseId,
    extractReceiptData.
  destruct (Single.extractNettoReceiptData body) as [data|] eqn:Hs;
    [|intros []].
  pose proof (getStoreId_effects storesData (js "Netto Marken-Discount") data)
    as E.
  assert (S1 : ~ In (AppendRow (js "priceLog") row)
                 (fst (getStoreId storesData (js "Netto Marken-Discount")
                         data))).
  { destruct E as [->| ->]; cbn [In]; [tauto|].
    intros [H|[]]. discriminate H. }
  destruct (getStoreId storesData (js "Netto Marken-Discount") data)
    as [e1 [storeId|err]]; cbn [fst] in S1; [|intros H; contradiction].
  destruct (truthy _) eqn:T; [|rewrite app_nil_r; intros H; contradiction].
  cbn [app]. intros H. apply in_app_or in H as [H|H].
  2:{ destruct H as [H|[]]. discriminate H. }
  apply in_app_or in H as [H|H]; [contradiction|].
  unfold loadLineItems in H. apply in_map_iff in H as (it & [= <-] & Hin).
  destruct (single_items body data Hs) as (lines & L).
  rewrite L in Hin. apply filter_In in Hin as [Hin Hd].
  pose proof (flush_trace_shape lines initial) as F.
  rewrite Forall_forall in F.
  pose proof (flush_trace_priced lines initial) as P.
  rewrite Forall_forall in P.
  specialize (F ltac:(cbn; now left) it Hin).
  specialize (P ltac:(intros y; discriminate) it Hin).
  destruct F as [->|[D _]]; [discriminate|].
  destruct (description it) as [d|] eqn:Ed; [|congruence].
  eexists d, _, _, _. split; [reflexivity|]. split; [|split; [|exact T]].
  - destruct (details it); cbn [of_string]; [right; eexists; reflexivity|].
    now left.
  - unfold priced in P.
    destruct (totalPrice it) as [x|]; cbn [of_number]; [|now left].
    right. exists x. split; [reflexivity|].
    apply price_of_text_nonnegative. now apply P.
Qed.

(** X19.  No row is ever appended to the purchases sheet: a purchase that
    is not in the sheet already is not created, the branch that should do
    it stops at a name that is not in scope. *)
Theorem purchases_sheet_never_written
    (storesData purchasesData : list (list value)) (body : jsstring)
    (date : value) (row : list value) :
  ~ In (AppendRow (js "purchases") row)
       (processMessage dateString storesData purchasesData body date).
Proof.
  intros H. apply processMessage_effects in H
    as [(address & E)|[(row' & E)|E]]; discriminate.
Qed.

(** X10.  The extraction with its error handling gives [null] exactly when
    the start marker is missing or the cart marker does not occur between
    it and the payments marker; otherwise it gives the receipt. *)
Theorem receipt_data_null_iff (body : jsstring) :
  extractReceiptData body = None
  <->
  ~ (exists before after,
       cut FILIALE body = Some (before, after)
       /\ occurs WARENKORB (upto ZAHLUNGEN (upto FILIALE after))).
Proof.
  unfold extractReceiptData.
  pose proof (single_ok_iff body) as I.
  destruct (Single.extractNettoReceiptData body) as [r|e].
  - split; [discriminate|]. intros N. exfalso. apply N, I. now exists r.
  - split; [|reflexivity]. intros _ N. apply I in N as [r N]. discriminate.
Qed.

(** X20.  A message whose body lacks the start marker, or the cart marker
    in its span, is left alone: no row is appended to any sheet and the
    message stays unread. *)
Theorem malformed_message_untouched
    (storesData purchasesData : list (list value)) (body : jsstring)
    (date : value) :
  ~ (exists before after,
       cut FILIALE body = Some (before, after)
       /\ occurs WARENKORB (upto ZAHLUNGEN (upto FILIALE after))) ->
  processMessage dateString storesData purchasesData body date = [].
Proof.
  intros N. unfold processMessage, extractReceiptData.
  pose proof (single_ok_iff body) as I.
  destruct (Single.extractNettoReceiptData body) as [r|e]; [|reflexivity].
  exfalso. apply N, I. now exists r.
Qed.

End CodeFacts.

Lemma first_matching_purchase_witness :
  findMatchingPurchaseId sample_dateString
    ([VString (js "id"); VNull; VString (js "date"); VString (js "total");
      VString (js "store")]
       :: [[VString (js "p0"); VNull; VString (js "Mon Jan 06 2025");
            VNumber (S754_zero false); VString (js "s2")]]
       ++ [VString (js "p1"); VNull; VString (js "Mon Jan 06 2025");
           VNumber (S754_zero false); VString (js "s1")]
       :: [[VString (js "p2"); VNull; VString (js "Mon Jan 06 2025");
            VNumber (S754_zero false); VString (js "s1")]])
    (VString (js "s1")) (js "Mon Jan 06 2025") VUndefined
  = cell [VString (js "p1"); VNull; VString (js "Mon Jan 06 2025");
          VNumber (S754_zero false); VString (js "s1")]
      purchaseIdColumnIndex.
Proof.
  apply (first_matching_purchase sample_dateString
           [VString (js "id"); VNull; VString (js "date");
            VString (js "total"); VString (js "store")]
           [[VString (js "p0"); VNull; VString (js "Mon Jan 06 2025");
             VNumber (S754_zero false); VString (js "s2")]]
           [[VString (js "p2"); VNull; VString (js "Mon Jan 06 2025");
             VNumber (S754_zero false); VString (js "s1")]]
           [VString (js "p1"); VNull; VString (js "Mon Jan 06 2025");
            VNumber (S754_zero false); VString (js "s1")]
           (VString (js "s1")) VUndefined (js "Mon Jan 06 2025")).
  - intros r [<-|[]]. vm_compute. reflexivity.
  - vm_compute. reflexivity.
Defined.

Lemma purchase_match_ignores_price_witness :
  findMatchingPurchaseId sample_dateString
    [[]; [VString (js "p1"); VNull; VString (js "d"); VNumber (S754_zero false);
          VString (js "s1")]]
    (VString (js "s1")) (js "d") VUndefined
  = findMatchingPurchaseId sample_dateString
      [[VString (js "purchase")];
       [VString (js "p1"); VString (js "x"); VString (js "d");
        VNumber (S754_infinity false); VString (js "s1")]]
      (VString (js "s1")) (js "d") (VNumber (S754_zero false)).
Proof.
  apply (purchase_match_ignores_price sample_dateString
           [[]; [VString (js "p1"); VNull; VString (js "d");
                 VNumber (S754_zero false); VString (js "s1")]]
           [[VString (js "purchase")];
            [VString (js "p1"); VString (js "x"); VString (js "d");
             VNumber (S754_infinity false); VString (js "s1")]]).
  cbn [skipn]. repeat constructor.
Defined.



Lemma price_log_rows_described_witness :
  exists d dt p id,
    [ VString (js "Brot"); VString (js "500g"); VNull; VNull; VNull;
      VString (js "EUR");
      VNumber (S754_finite false 5606981536076268 (-51));
      VString (js "p1") ]
    = [VString d; dt; VNull; VNull; VNull; VString (js "EUR"); p; id]
    /\ (dt = VNull \/ exists s, dt = VString s)
    /\ (p = VNull \/ exists x, p = VNumber x /\ nonnegative x)
    /\ truthy id = true.
Proof.
  apply (price_log_rows_described sample_dateString sample_stores
           sample_purchases basic_receipt (VString (js "Mon Jan 06 2025"))).
  vm_compute. left. reflexivity.
Defined.

Lemma malformed_message_untouched_witness :
  processMessage sample_dateString sample_stores sample_purchases
    (js "Vielen Dank. Filiale: Hauptstr. 123") (VString (js "Mon Jan 06 2025"))
  = [].
Proof.
  apply (malformed_message_untouched sample_dateString sample_stores
           sample_purchases (js "Vielen Dank. Filiale: Hauptstr. 123")
           (VString (js "Mon Jan 06 2025"))).
  intros (before & after & C & O).
  vm_compute in C. injection C as <- <-.
  apply cut_occurs in O. vm_compute in O. now apply O.
Defined.
